(** * FastUI display components: [DisplayLookup], [Display], [Details]

    A shallow embedding of [fastui/components/display.py].

    Python objects are mutable and shared by reference: the validator
    [Details._fill_fields] writes the [title] attribute of descriptor
    objects the caller still holds, and the same object may occur more
    than once in the [fields] list.  Objects therefore live in a heap
    (a list indexed by address) and [fields] is a list of addresses.
    Python's unbounded [int] is [Z], [str] is [string], a [dict] is an
    association list kept in insertion order with unique keys. *)

From Stdlib Require Import ZArith String List Bool Lia.
From stdpp Require Import base tactics option list strings.

Local Open Scope string_scope.
Local Open Scope list_scope.
Local Open Scope Z_scope.

(** ** Exceptions and results *)

(** One entry of a pydantic [ValidationError]: the attribute it is about
    and pydantic's error type. *)
Record ErrorDetails := { err_loc : string; err_type : string }.

Inductive exn :=
| ValidationError (errors : list ErrorDetails)
| KeyError (key : string)
| AttributeError (attr : string)
| BadReference (* an address with no object behind it: not a Python state *).

Inductive result (A : Type) :=
| Ok (a : A)
| Raise (e : exn).
Arguments Ok {A} a.
Arguments Raise {A} e.

Definition result_bind {A B} (f : A -> result B) (m : result A) : result B :=
  match m with
  | Ok a => f a
  | Raise e => Raise e
  end.

#[global] Instance result_ret : MRet result := fun A a => Ok a.
#[global] Instance result_mbind : MBind result := fun A B f m => result_bind f m.

Definition is_Ok {A} (m : result A) : bool :=
  match m with Ok _ => true | Raise _ => false end.

(** ** Dictionaries (insertion ordered, as Python's [dict]) *)

Module Dict.

Definition t (V : Type) := list (string * V).

Definition keys {V} (d : t V) : list string := map fst d.
Definition items {V} (d : t V) : list (string * V) := d.

(** [d.get(k)] *)
Fixpoint get {V} (k : string) (d : t V) : option V :=
  match d with
  | [] => None
  | (k', v) :: rest => if String.eqb k k' then Some v else get k rest
  end.

(** [d[k] = v]: an existing key keeps its position, a new key goes last. *)
Fixpoint set {V} (k : string) (v : V) (d : t V) : t V :=
  match d with
  | [] => [(k, v)]
  | (k', v') :: rest =>
      if String.eqb k k' then (k', v) :: rest else (k', v') :: set k v rest
  end.

(** [d.update(other)], entry by entry in [other]'s order. *)
Definition update {V} (d other : t V) : t V :=
  fold_left (fun acc kv => set (fst kv) (snd kv) acc) (items other) d.

(** The dict display [{**a, **b}]. *)
Definition merge {V} (a b : t V) : t V := update (update [] a) b.

(** What makes an association list a dict: no key twice. *)
Definition wf {V} (d : t V) : Prop := NoDup (keys d).

End Dict.

(** Truth value of an [Optional[str]] in a Python condition: [None] and
    the empty string are false. *)
Definition truthy (o : option string) : bool :=
  match o with
  | None => false
  | Some s => negb (String.eqb s EmptyString)
  end.

(** ** The data model's declared metadata

    [Details.data] is a pydantic model ([_types.DataModel]).  The
    validator only reads the class level tables [model_fields] and
    [model_computed_fields], and of each entry only [title]. *)

Module FieldInfo.
Record t := mk { title : option string }.
End FieldInfo.

Module ComputedFieldInfo.
Record t := mk { title : option string }.
End ComputedFieldInfo.

Record DataModel := {
  model_fields : Dict.t FieldInfo.t;
  model_computed_fields : Dict.t ComputedFieldInfo.t
}.

(** A value of the merged table is either kind of description; both
    have a [title]. *)
Definition AnyFieldInfo : Type := FieldInfo.t + ComputedFieldInfo.t.

Definition info_title (f : AnyFieldInfo) : option string :=
  match f with
  | inl s => FieldInfo.title s
  | inr c => ComputedFieldInfo.title c
  end.

(** Line 83: [{**self.data.model_fields, **self.data.model_computed_fields}]. *)
Definition merged_fields (d : DataModel) : Dict.t AnyFieldInfo :=
  Dict.merge (map (fun kv => (fst kv, inl (snd kv))) (model_fields d))
             (map (fun kv => (fst kv, inr (snd kv))) (model_computed_fields d)).

(** pydantic builds both tables per class and refuses a class in which a
    computed field carries the name of a stored field, so all declared
    names of a model are distinct. *)
Definition wf_DataModel (d : DataModel) : Prop :=
  NoDup (Dict.keys (model_fields d) ++ Dict.keys (model_computed_fields d)).

(** The declared attributes in declaration order, stored ones first, each
    with its declared title. *)
Definition declared_attributes (d : DataModel) : list (string * option string) :=
  map (fun kv => (fst kv, FieldInfo.title (snd kv))) (model_fields d) ++
  map (fun kv => (fst kv, ComputedFieldInfo.title (snd kv))) (model_computed_fields d).

(** ** Display modes *)

Module DisplayMode.
Inductive t :=
| auto | plain | datetime | date | duration
| as_title | markdown | json | inline_code | currency.
End DisplayMode.

(** ** Descriptors

    [events.AnyEvent], [types.JsonData] and [class_name.ClassNameField]
    are declared in other modules of the package; the code of this file
    stores them and never looks inside, so they are parameters. *)

Section Components.

Context {AnyEvent JsonData ClassName : Type}.

(** [class DisplayBase]: the attributes both descriptors share, every
    one defaulting to [None]. *)
Record DisplayBase := {
  mode : option DisplayMode.t;
  title : option string;
  on_click : option AnyEvent
}.

(** The two concrete classes; [isinstance] is the constructor test.
    [Display.type] is the constant ['Display']. *)
Inductive component :=
| DisplayLookup (base : DisplayBase) (field : string)
                (table_width_percent : option Z)
| Display (base : DisplayBase) (value : JsonData).

Definition base_of (c : component) : DisplayBase :=
  match c with
  | DisplayLookup b _ _ => b
  | Display b _ => b
  end.

(** [c.title] *)
Definition get_title (c : component) : option string := title (base_of c).

Definition base_with_title (t : option string) (b : DisplayBase) : DisplayBase :=
  {| mode := mode b; title := t; on_click := on_click b |}.

(** The object [c] after [c.title = t].  (pydantic also records that
    [title] was assigned; that record is not an attribute of the
    descriptor and is not modelled.) *)
Definition with_title (t : option string) (c : component) : component :=
  match c with
  | DisplayLookup b f w => DisplayLookup (base_with_title t b) f w
  | Display b v => Display (base_with_title t b) v
  end.

(** *** Construction of a [DisplayLookup]

    Keyword arguments as the caller passes them; [None] is an omitted
    argument (for the optional ones the same as passing [None]). *)
Record DisplayLookup_kwargs := {
  kw_mode : option DisplayMode.t;
  kw_title : option string;
  kw_on_click : option AnyEvent;
  kw_field : option string;
  kw_table_width_percent : option Z
}.

(** [field: str], no default: any string is accepted, an omitted
    argument is the error [missing]. *)
Definition validate_field (v : option string) : list ErrorDetails :=
  match v with
  | Some _ => []
  | None => [ {| err_loc := "field"; err_type := "missing" |} ]
  end.

(** [Annotated[int, Interval(ge=0, le=100)]] on an integer input. *)
Definition validate_Interval (ge le : Z) (loc : string) (v : Z)
  : list ErrorDetails :=
  if v <? ge then [ {| err_loc := loc; err_type := "greater_than_equal" |} ]
  else if le <? v then [ {| err_loc := loc; err_type := "less_than_equal" |} ]
  else [].

(** [Union[Annotated[int, Interval(ge=0, le=100)], None] = None] *)
Definition validate_table_width_percent (v : option Z) : list ErrorDetails :=
  match v with
  | None => []
  | Some w => validate_Interval 0 100 "table_width_percent" w
  end.

(** A call of [DisplayLookup] with keyword arguments: pydantic
    validates every attribute, collects the errors and raises when there
    is one; the object built holds the arguments as given. *)
Definition DisplayLookup_new (kw : DisplayLookup_kwargs) : result component :=
  match validate_field (kw_field kw) ++
        validate_table_width_percent (kw_table_width_percent kw), kw_field kw with
  | [], Some f =>
      Ok (DisplayLookup {| mode := kw_mode kw; title := kw_title kw;
                           on_click := kw_on_click kw |}
                        f (kw_table_width_percent kw))
  | [], None => Raise (ValidationError (validate_field None))
  | errors, _ => Raise (ValidationError errors)
  end.

(** ** The heap *)

#[local] Abbreviation loc := nat.
#[local] Abbreviation heap := (list component).

(** [obj.title = t] for the object at address [r]. *)
Definition setattr_title (r : loc) (t : option string) (h : heap) : heap :=
  match h !! r with
  | Some c => <[r := with_title t c]> h
  | None => h
  end.

(** Allocation of new objects: they get the next free addresses. *)
Definition alloc_all (cs : list component) (h : heap) : list loc * heap :=
  (seq (length h) (length cs), h ++ cs).

(** The objects behind a list of references. *)
Fixpoint deref (h : heap) (refs : list loc) : option (list component) :=
  match refs with
  | [] => Some []
  | r :: rest =>
      match h !! r, deref h rest with
      | Some c, Some cs => Some (c :: cs)
      | _, _ => None
      end
  end.

(** Every reference points to an object. *)
Definition valid_refs (h : heap) (refs : list loc) : Prop :=
  Forall (fun r => (r < length h)%nat) refs.

(** ** [class Details] *)

(** [type] is the constant ['Details']. *)
Record Details := {
  data : DataModel;
  fields : option (list loc);
  class_name : option ClassName
}.

Definition with_fields (fs : list loc) (self : Details) : Details :=
  {| data := data self; fields := Some fs; class_name := class_name self |}.

(** Line 86, one element of the comprehension:
    [DisplayLookup(field=name, title=field.title)]. *)
Definition synthesize (name : string) (field_title : option string)
  : result component :=
  DisplayLookup_new {| kw_mode := None; kw_title := field_title;
                       kw_on_click := None; kw_field := Some name;
                       kw_table_width_percent := None |}.

(** Line 86, the comprehension over [fields.items()]. *)
Fixpoint synthesize_all (items : list (string * AnyFieldInfo))
  : result (list component) :=
  match items with
  | [] => Ok []
  | (name, field) :: rest =>
      c ← synthesize name (info_title field);
      cs ← synthesize_all rest;
      Ok (c :: cs)
  end.

(** Lines 90-95, the body of the loop for the object [field] found at
    address [r]. *)
Definition loop_body (d : DataModel) (r : loc) (field : component) (h : heap)
  : heap :=
  match field with
  | DisplayLookup _ name _ =>
      match Dict.get name (model_fields d) with
      | Some pydantic_field =>
          if truthy (FieldInfo.title pydantic_field)
          then setattr_title r (FieldInfo.title pydantic_field) h
          else h
      | None => h
      end
  | Display b _ => setattr_title r (title b) h
  end.

(** Line 89: the generator [(c for c in self.fields if c.title is None)]
    is consumed lazily, so the test on [c.title] reads the heap as the
    earlier iterations left it. *)
Fixpoint fill_loop (d : DataModel) (refs : list loc) (h : heap) : result heap :=
  match refs with
  | [] => Ok h
  | r :: rest =>
      match h !! r with
      | None => Raise BadReference
      | Some c =>
          match get_title c with
          | None => fill_loop d rest (loop_body d r c h)
          | Some _ => fill_loop d rest h
          end
      end
  end.

(** Lines 81-96: the [model_validator(mode='after')]. *)
Definition _fill_fields (self : Details) (h : heap) : result (Details * heap) :=
  let fields_ := merged_fields (data self) in
  match fields self with
  | None =>
      cs ← synthesize_all (Dict.items fields_);
      let (refs, h') := alloc_all cs h in
      Ok (with_fields refs self, h')
  | Some refs =>
      h' ← fill_loop (data self) refs h;
      Ok (self, h')
  end.

(** [Details(data=..., fields=..., class_name=...)] with descriptor
    instances: pydantic keeps the instances it is given (and copies the
    list), then runs the validator. *)
Definition Details_new (d : DataModel) (fs : option (list loc))
           (cn : option ClassName) (h : heap) : result (Details * heap) :=
  _fill_fields {| data := d; fields := fs; class_name := cn |} h.

(** The descriptors of a [Details] as values, [None] when [fields] is
    unset. *)
Definition resolved_fields (self : Details) (h : heap) : option (list component) :=
  match fields self with
  | None => None
  | Some refs => deref h refs
  end.

End Components.

Arguments DisplayBase : clear implicits.
Arguments component : clear implicits.
Arguments DisplayLookup_kwargs : clear implicits.

(** Addresses, and heaps of descriptors. *)
Abbreviation loc := nat.
Abbreviation heap AnyEvent JsonData := (list (component AnyEvent JsonData)).
Arguments Details : clear implicits.

(** ** The JSON schema hook

    [handler] is pydantic's [GetJsonSchemaHandler].  Calling it gives
    the schema generated for the class, either the schema itself or a
    [{'$ref': ...}] into the generator's table of definitions;
    [handler.resolve_ref_schema] returns the definition a [$ref] schema
    points to and any other schema as it is.  Both return the dict the
    generator holds, so a mutation is seen through either. *)

#[local] Unset Elimination Schemes.
Inductive json :=
| JNull
| JBool (b : bool)
| JInt (z : Z)
| JStr (s : string)
| JArr (elements : list json)
| JObj (members : list (string * json)).
#[local] Set Elimination Schemes.

(** What the handler produced: the schema returned by [handler(core_schema)]
    and the definitions it may refer to, keyed by reference. *)
Record schema_store := {
  json_schema : Dict.t json;
  definitions : Dict.t (Dict.t json)
}.

(** Where the schema to update lives. *)
Inductive schema_place :=
| Top
| Definition_ (ref : string).

(** [handler.resolve_ref_schema(json_schema)]: the dict to update and
    where the generator holds it. *)
Definition resolve_ref_schema (s : schema_store)
  : result (schema_place * Dict.t json) :=
  match Dict.get "$ref" (json_schema s) with
  | Some (JStr ref) =>
      match Dict.get ref (definitions s) with
      | Some schema_def => Ok (Definition_ ref, schema_def)
      | None => Raise (KeyError ref)
      end
  | _ => Ok (Top, json_schema s)
  end.

(** The store after the dict at place [p] was mutated into [schema_def]. *)
Definition store_at (p : schema_place) (schema_def : Dict.t json)
           (s : schema_store) : schema_store :=
  match p with
  | Top => {| json_schema := schema_def; definitions := definitions s |}
  | Definition_ ref =>
      {| json_schema := json_schema s;
         definitions := Dict.set ref schema_def (definitions s) |}
  end.

(** [schema_def['required'].append('fields')] on the dict [schema_def]:
    the subscript raises [KeyError] without the key, and only a list has
    [append]. *)
Definition append_required_fields (schema_def : Dict.t json) : result (Dict.t json) :=
  match Dict.get "required" schema_def with
  | None => Raise (KeyError "required")
  | Some (JArr l) => Ok (Dict.set "required" (JArr (l ++ [JStr "fields"])) schema_def)
  | Some _ => Raise (AttributeError "append")
  end.

(** Lines 98-105: [Details.__get_pydantic_json_schema__], given what the
    handler produced; the store after the call stands for the returned
    [json_schema] and the definitions it refers to. *)
Definition __get_pydantic_json_schema__ (s : schema_store) : result schema_store :=
  '(p, schema_def0) ← resolve_ref_schema s;
  schema_def ← append_required_fields schema_def0;
  Ok (store_at p schema_def s).

(** The schema that describes the class: the one the returned
    [json_schema] resolves to. *)
Definition described_schema (s : schema_store) : option (Dict.t json) :=
  match resolve_ref_schema s with
  | Ok (_, schema_def) => Some schema_def
  | Raise _ => None
  end.

(** The [required] list of a schema, when it has one. *)
Definition required_of (schema_def : Dict.t json) : option (list json) :=
  match Dict.get "required" schema_def with
  | Some (JArr l) => Some l
  | _ => None
  end.

(** ** What resolution does to one descriptor

    The effect of one pass of the loop on a single object, as a function
    of the object alone; [fill_loop_spec] below shows that the loop over
    the heap computes it, shared objects included. *)

Section Resolution.

Context {AnyEvent JsonData ClassName : Type}.

#[local] Abbreviation component := (component AnyEvent JsonData).
#[local] Abbreviation heap := (list component).
#[local] Abbreviation Details := (Details ClassName).

Definition fill_title (d : DataModel) (c : component) : component :=
  match get_title c with
  | Some _ => c
  | None =>
      match c with
      | DisplayLookup _ name _ =>
          match Dict.get name (model_fields d) with
          | Some pydantic_field =>
              if truthy (FieldInfo.title pydantic_field)
              then with_title (FieldInfo.title pydantic_field) c
              else c
          | None => c
          end
      | Display _ _ => c
      end
  end.

(** The attributes other than [title]. *)
Definition get_mode (c : component) : option DisplayMode.t := mode (base_of c).
Definition get_on_click (c : component) : option AnyEvent := on_click (base_of c).

Definition get_field (c : component) : option string :=
  match c with
  | DisplayLookup _ f _ => Some f
  | Display _ _ => None
  end.

Definition get_table_width_percent (c : component) : option (option Z) :=
  match c with
  | DisplayLookup _ _ w => Some w
  | Display _ _ => None
  end.

Definition get_value (c : component) : option JsonData :=
  match c with
  | DisplayLookup _ _ _ => None
  | Display _ v => Some v
  end.

Definition is_Display (c : component) : bool :=
  match c with
  | DisplayLookup _ _ _ => false
  | Display _ _ => true
  end.

(** [c'] is of the class of [c] and agrees with it on every attribute
    but [title]. *)
Definition same_but_title (c c' : component) : Prop :=
  is_Display c' = is_Display c /\
  get_mode c' = get_mode c /\
  get_on_click c' = get_on_click c /\
  get_field c' = get_field c /\
  get_value c' = get_value c /\
  get_table_width_percent c' = get_table_width_percent c.

(** The descriptor synthesized for a declared attribute. *)
Definition lookup_for (attr : string * option string) : component :=
  DisplayLookup {| mode := None; title := snd attr; on_click := None |}
                (fst attr) None.

(** Title fill as the specification words it, for one construction:
    every lookup of the explicit list with no title whose name is that
    of a declared attribute, stored or computed, with declared title
    [T] ends with title [T]. *)
Definition fills_title_of_any_attribute
           (d : DataModel) (refs : list loc) (cn : option ClassName)
           (h : heap) : Prop :=
  forall (self : Details) (h' : heap) r b name w T,
    Details_new d (Some refs) cn h = Ok (self, h') ->
    r ∈ refs ->
    h !! r = Some (DisplayLookup b name w) ->
    title b = None ->
    (name, Some T) ∈ declared_attributes d ->
    h' !! r = Some (DisplayLookup (base_with_title (Some T) b) name w).

(** Non-emptiness of [field] as the specification words it, for one
    call: an empty [field] is a validation error. *)
Definition rejects_empty_field (kw : DisplayLookup_kwargs AnyEvent) : Prop :=
  kw_field kw = Some EmptyString ->
  exists errors,
    DisplayLookup_new (JsonData := JsonData) kw = Raise (ValidationError errors).

End Resolution.

(** ** Example inputs *)

Module Examples.

(** No event and no class name occur in the examples; a literal value
    is a JSON value. *)
Abbreviation component := (component Empty_set json).
Abbreviation heap := (list component).
Abbreviation Details := (Details string).

(** A model with three stored attributes, [name] titled ['Name'],
    [age] untitled and [nick] with the empty title, and one computed
    attribute [full] titled ['Full name']. *)
Definition person : DataModel := {|
  model_fields := [ ("name", FieldInfo.mk (Some "Name"));
                    ("age", FieldInfo.mk None);
                    ("nick", FieldInfo.mk (Some EmptyString)) ];
  model_computed_fields := [ ("full", ComputedFieldInfo.mk (Some "Full name")) ]
|}.

Definition untitled : DisplayBase Empty_set :=
  {| mode := None; title := None; on_click := None |}.

Definition titled (t : string) : DisplayBase Empty_set :=
  {| mode := Some DisplayMode.plain; title := Some t; on_click := None |}.

Definition lookup (name : string) : component := DisplayLookup untitled name None.

(** Six caller-made descriptors. *)
Definition objects : heap :=
  [ lookup "name";
    DisplayLookup (titled "Years") "age" (Some 40);
    lookup "full";
    Display untitled (JStr "literal");
    lookup "shoe_size";
    lookup "nick" ].

(** An explicit list that names the first object twice. *)
Definition explicit : list loc := [0; 1; 2; 3; 4; 5; 0]%nat.

(** What construction with [explicit] is expected to give: only the
    lookup of [name] gets a title. *)
Definition explicit_self : Details :=
  {| data := person; fields := Some explicit; class_name := None |}.

Definition resolved_objects : heap :=
  [ DisplayLookup {| mode := None; title := Some "Name"; on_click := None |}
                  "name" None;
    DisplayLookup (titled "Years") "age" (Some 40);
    lookup "full";
    Display untitled (JStr "literal");
    lookup "shoe_size";
    lookup "nick" ].

(** What construction without [fields] is expected to allocate. *)
Definition inferred_objects : heap :=
  [ DisplayLookup {| mode := None; title := Some "Name"; on_click := None |}
                  "name" None;
    lookup "age";
    DisplayLookup {| mode := None; title := Some EmptyString; on_click := None |}
                  "nick" None;
    DisplayLookup {| mode := None; title := Some "Full name"; on_click := None |}
                  "full" None ].

Definition inferred_self : Details :=
  {| data := person; fields := Some [6; 7; 8; 9]%nat; class_name := None |}.

Definition kwargs (field : option string) (width : option Z)
  : DisplayLookup_kwargs Empty_set :=
  {| kw_mode := None; kw_title := None; kw_on_click := None;
     kw_field := field; kw_table_width_percent := width |}.

(** The schema pydantic generates for [Details] (lines 69-78: only
    [data] has no default), inline and behind a reference. *)
Definition Details_schema : Dict.t json :=
  [ ("properties", JObj [ ("data", JObj []); ("fields", JObj []);
                          ("className", JObj []); ("type", JObj []) ]);
    ("required", JArr [JStr "data"]);
    ("title", JStr "Details");
    ("type", JStr "object") ].

Definition inline_store : schema_store :=
  {| json_schema := Details_schema; definitions := [] |}.

Definition ref_store : schema_store :=
  {| json_schema := [ ("$ref", JStr "#/$defs/Details") ];
     definitions := [ ("#/$defs/Details", Details_schema) ] |}.

End Examples.

(** ** The rest of the module *)

(** *** [class DisplayMode(str, enum.Enum)], lines 18-30

    Each member is declared with the string that is its value. *)
Definition DisplayMode_value (m : DisplayMode.t) : string :=
  match m with
  | DisplayMode.auto => "auto"
  | DisplayMode.plain => "plain"
  | DisplayMode.datetime => "datetime"
  | DisplayMode.date => "date"
  | DisplayMode.duration => "duration"
  | DisplayMode.as_title => "as_title"
  | DisplayMode.markdown => "markdown"
  | DisplayMode.json => "json"
  | DisplayMode.inline_code => "inline_code"
  | DisplayMode.currency => "currency"
  end.

(** The members in definition order, as iterating the class gives them. *)
Definition DisplayMode_members : list DisplayMode.t :=
  [ DisplayMode.auto; DisplayMode.plain; DisplayMode.datetime;
    DisplayMode.date; DisplayMode.duration; DisplayMode.as_title;
    DisplayMode.markdown; DisplayMode.json; DisplayMode.inline_code;
    DisplayMode.currency ].

(** [DisplayMode(s)], the lookup of a member by value; [None] stands for
    the [ValueError] of a string that is no member's value. *)
Definition DisplayMode_of_value (s : string) : option DisplayMode.t :=
  List.find (fun m => String.eqb (DisplayMode_value m) s) DisplayMode_members.

Section Calls.

Context {AnyEvent JsonData : Type}.

#[local] Abbreviation component := (component AnyEvent JsonData).

(** *** Construction of a [Display], lines 56-63 *)

Record Display_kwargs := {
  dkw_mode : option DisplayMode.t;
  dkw_title : option string;
  dkw_on_click : option AnyEvent;
  dkw_value : option JsonData;
  dkw_type : option string
}.

(** [value: _types.JsonData], no default. *)
Definition validate_value (v : option JsonData) : list ErrorDetails :=
  match v with
  | Some _ => []
  | None => [ {| err_loc := "value"; err_type := "missing" |} ]
  end.

(** [_t.Literal[expected] = expected]: an omitted argument takes the
    default, a passed one must be the literal. *)
Definition validate_Literal (expected loc : string) (v : option string)
  : list ErrorDetails :=
  match v with
  | None => []
  | Some s =>
      if String.eqb s expected then []
      else [ {| err_loc := loc; err_type := "literal_error" |} ]
  end.

Definition Display_new (kw : Display_kwargs) : result component :=
  match validate_value (dkw_value kw) ++
        validate_Literal "Display" "type" (dkw_type kw), dkw_value kw with
  | [], Some v =>
      Ok (Display {| mode := dkw_mode kw; title := dkw_title kw;
                     on_click := dkw_on_click kw |} v)
  | [], None => Raise (ValidationError (validate_value None))
  | errors, _ => Raise (ValidationError errors)
  end.

(** *** Keyword sets and [extra='forbid'], lines 46 and 56

    A set of keyword arguments as a caller may pass it to either class:
    every attribute some class declares, [None] when the keyword is not
    passed (for [table_width_percent], which may be passed as [None],
    [Some None]), and the names of the keywords no class declares. *)
Record keywords := {
  a_mode : option DisplayMode.t;
  a_title : option string;
  a_on_click : option AnyEvent;
  a_field : option string;
  a_table_width_percent : option (option Z);
  a_value : option JsonData;
  a_type : option string;
  a_unknown : list string
}.

Definition passed {A} (name : string) (v : option A) : list string :=
  match v with
  | Some _ => [name]
  | None => []
  end.

Definition extra_forbidden (names : list string) : list ErrorDetails :=
  map (fun n => {| err_loc := n; err_type := "extra_forbidden" |}) names.

(** The errors of the declared attributes together with one error per
    keyword the class does not declare. *)
Definition forbid_extra (names : list string) (r : result component)
  : result component :=
  match extra_forbidden names, r with
  | [], _ => r
  | extra, Ok _ => Raise (ValidationError extra)
  | extra, Raise (ValidationError errors) => Raise (ValidationError (errors ++ extra))
  | _, Raise e => Raise e
  end.

(** [DisplayLookup] called with a keyword set: [value] and [type] are
    not attributes of the class. *)
Definition DisplayLookup_call (a : keywords) : result component :=
  forbid_extra
    (passed "value" (a_value a) ++ passed "type" (a_type a) ++ a_unknown a)
    (DisplayLookup_new
       {| kw_mode := a_mode a; kw_title := a_title a;
          kw_on_click := a_on_click a; kw_field := a_field a;
          kw_table_width_percent :=
            match a_table_width_percent a with
            | Some w => w
            | None => None
            end |}).

(** [Display] called with a keyword set: [field] and
    [table_width_percent] are not attributes of the class. *)
Definition Display_call (a : keywords) : result component :=
  forbid_extra
    (passed "field" (a_field a) ++
     passed "table_width_percent" (a_table_width_percent a) ++ a_unknown a)
    (Display_new
       {| dkw_mode := a_mode a; dkw_title := a_title a;
          dkw_on_click := a_on_click a; dkw_value := a_value a;
          dkw_type := a_type a |}).

(** The constraint of line 52 as a property of an object. *)
Definition valid_width (c : component) : Prop :=
  match c with
  | DisplayLookup _ _ (Some w) => 0 <= w <= 100
  | _ => True
  end.

End Calls.

Arguments Display_kwargs : clear implicits.
Arguments keywords : clear implicits.

Module MoreExamples.

(** The schema of a class whose every attribute has a default: pydantic
    leaves [required] out. *)
Definition no_required_store : schema_store :=
  {| json_schema := [ ("properties", JObj []); ("type", JStr "object") ];
     definitions := [] |}.



(** A keyword set with a field name and a literal value at once. *)
Definition both : keywords Empty_set json :=
  {| a_mode := None; a_title := None; a_on_click := None;
     a_field := Some "name"; a_table_width_percent := None;
     a_value := Some (JStr "literal"); a_type := None; a_unknown := [] |}.

Definition only_field : keywords Empty_set json :=
  {| a_mode := None; a_title := None; a_on_click := None;
     a_field := Some "name"; a_table_width_percent := Some (Some 40);
     a_value := None; a_type := None; a_unknown := [] |}.

Definition only_value : keywords Empty_set json :=
  {| a_mode := None; a_title := None; a_on_click := None;
     a_field := None; a_table_width_percent := None;
     a_value := Some (JStr "literal"); a_type := Some "Display";
     a_unknown := [] |}.

End MoreExamples.

(** * Properties *)

(** ** Dictionaries *)

Module DictFacts.

Lemma get_set_eq {V} (k : string) (v : V) (d : Dict.t V) :
  Dict.get k (Dict.set k v d) = Some v.
Proof.
  induction d as [|[k' v'] d IH]; simpl.
  - by rewrite String.eqb_refl.
  - destruct (String.eqb k k') eqn:E; simpl; rewrite E; [done | exact IH].
Qed.

Lemma get_set_ne {V} (k k0 : string) (v : V) (d : Dict.t V) :
  k0 <> k -> Dict.get k0 (Dict.set k v d) = Dict.get k0 d.
Proof.
  intros Hne. induction d as [|[k' v'] d IH]; simpl.
  - destruct (String.eqb_spec k0 k); [contradiction | done].
  - destruct (String.eqb_spec k k') as [->|Hk]; simpl.
    + destruct (String.eqb_spec k0 k'); [contradiction | done].
    + destruct (String.eqb k0 k'); [done | exact IH].
Qed.

Lemma get_None {V} (k : string) (d : Dict.t V) :
  k ∉ Dict.keys d -> Dict.get k d = None.
Proof.
  induction d as [|[k' v'] d IH]; simpl; intros Hk; [done|].
  apply not_elem_of_cons in Hk as [Hne Hk].
  destruct (String.eqb_spec k k'); [contradiction | auto].
Qed.


Lemma get_elem {V} (k : string) (v : V) (d : Dict.t V) :
  Dict.wf d -> (k, v) ∈ d -> Dict.get k d = Some v.
Proof.
  unfold Dict.wf.
  induction d as [|[k' v'] d IH]; simpl; intros Hnd Hin.
  - by apply elem_of_nil in Hin.
  - apply NoDup_cons in Hnd as [Hk' Hnd].
    apply elem_of_cons in Hin as [[= -> ->]|Hin].
    + by rewrite String.eqb_refl.
    + destruct (String.eqb_spec k k') as [->|Hne]; [|auto].
      exfalso. apply Hk'. unfold Dict.keys.
      change k' with (fst (k', v)). by apply list_elem_of_fmap_2.
Qed.

(** A key the dict does not have is added at the end. *)
Lemma set_fresh {V} (k : string) (v : V) (d : Dict.t V) :
  k ∉ Dict.keys d -> Dict.set k v d = d ++ [(k, v)].
Proof.
  induction d as [|[k' v'] d IH]; simpl; intros Hk; [done|].
  apply not_elem_of_cons in Hk as [Hne Hk].
  destruct (String.eqb_spec k k'); [contradiction|].
  by rewrite IH.
Qed.

Lemma keys_app {V} (a b : Dict.t V) :
  Dict.keys (a ++ b) = Dict.keys a ++ Dict.keys b.
Proof. apply map_app. Qed.

Lemma update_disjoint {V} (other d : Dict.t V) :
  NoDup (Dict.keys d ++ Dict.keys other) -> Dict.update d other = d ++ other.
Proof.
  unfold Dict.update, Dict.items.
  revert d. induction other as [|[k v] other IH]; intros d Hnd; simpl.
  - by rewrite app_nil_r.
  - simpl in Hnd.
    assert (k ∉ Dict.keys d) as Hk.
    { apply NoDup_app in Hnd as (_ & Hdis & _).
      intros Hin. apply (Hdis k Hin). apply list_elem_of_here. }
    rewrite set_fresh by done. rewrite IH.
    + by rewrite <- app_assoc.
    + rewrite keys_app. simpl. rewrite <- app_assoc. exact Hnd.
Qed.

(** For tables without a common key, [{**a, **b}] is [a] followed by [b]. *)
Lemma merge_disjoint {V} (a b : Dict.t V) :
  NoDup (Dict.keys a ++ Dict.keys b) -> Dict.merge a b = a ++ b.
Proof.
  intros Hnd. unfold Dict.merge.
  assert (Dict.update [] a = a) as ->.
  { rewrite update_disjoint; [done|]. simpl.
    by apply NoDup_app in Hnd as (? & _ & _). }
  by apply update_disjoint.
Qed.

End DictFacts.

(** ** One descriptor *)

Section DescriptorFacts.

Context {AnyEvent JsonData : Type}.

#[local] Abbreviation component := (component AnyEvent JsonData).
#[local] Abbreviation heap := (list component).

Implicit Types (c : component) (h : heap) (d : DataModel) (r : loc)
         (refs : list loc).

Lemma with_title_same c : with_title (get_title c) c = c.
Proof. by destruct c as [[m t oc] f w|[m t oc] v]. Qed.

Lemma get_title_with_title t c : get_title (with_title t c) = t.
Proof. by destruct c. Qed.

Lemma same_but_title_with_title t c : same_but_title c (with_title t c).
Proof. by destruct c. Qed.

Lemma same_but_title_refl c : same_but_title c c.
Proof. by repeat split. Qed.

Lemma fill_title_titled d c : get_title c <> None -> fill_title d c = c.
Proof. unfold fill_title. by destruct (get_title c). Qed.

Lemma fill_title_Display d c : is_Display c = true -> fill_title d c = c.
Proof. unfold fill_title. destruct c; [done|]. by destruct (get_title _). Qed.

(** What [fill_title] returns: the object itself, or the object with
    the non-empty title its stored attribute declares. *)
Lemma fill_title_cases d c :
  fill_title d c = c \/
  exists b name w pf T,
    c = DisplayLookup b name w /\ title b = None /\
    Dict.get name (model_fields d) = Some pf /\
    FieldInfo.title pf = Some T /\ T <> EmptyString /\
    fill_title d c = DisplayLookup (base_with_title (Some T) b) name w.
Proof.
  unfold fill_title.
  destruct (get_title c) eqn:Ht; [by left|].
  destruct c as [b name w|b v]; [|by left].
  destruct (Dict.get name (model_fields d)) as [pf|] eqn:Hget; [|by left].
  destruct (FieldInfo.title pf) as [T|] eqn:HT; simpl; [|by left].
  destruct (String.eqb_spec T EmptyString) as [->|Hne]; simpl; [by left|].
  right. by exists b, name, w, pf, T.
Qed.

Lemma fill_title_idem d c : fill_title d (fill_title d c) = fill_title d c.
Proof.
  destruct (fill_title_cases d c) as [H|(b & name & w & pf & T & _ & _ & _ & _ & _ & ->)];
    [by rewrite !H|].
  by apply fill_title_titled.
Qed.

Lemma fill_title_same_but_title d c : same_but_title c (fill_title d c).
Proof.
  destruct (fill_title_cases d c) as [H|(b & name & w & pf & T & -> & _ & _ & _ & _ & ->)].
  - rewrite H. apply same_but_title_refl.
  - apply (same_but_title_with_title (Some T) (DisplayLookup b name w)).
Qed.

(** ** The loop over the heap *)

Lemma setattr_title_length r t h : length (setattr_title r t h) = length h.
Proof.
  unfold setattr_title. destruct (h !! r); [apply length_insert | done].
Qed.

Lemma loop_body_length d r c h : length (loop_body d r c h) = length h.
Proof.
  unfold loop_body. destruct c as [b name w|b v].
  - destruct (Dict.get _ _); [|done].
    destruct (truthy _); [apply setattr_title_length | done].
  - apply setattr_title_length.
Qed.

(** One iteration replaces the object it is run on by its filled form. *)
Lemma loop_body_spec d r c h :
  h !! r = Some c -> get_title c = None ->
  loop_body d r c h = <[r := fill_title d c]> h.
Proof.
  intros Hr Ht. unfold loop_body, fill_title, setattr_title. rewrite Ht, Hr.
  destruct c as [b name w|b v].
  - destruct (Dict.get _ _) as [pf|]; [|by rewrite list_insert_id].
    destruct (truthy _); [done | by rewrite list_insert_id].
  - change (title b) with (get_title (Display b v)).
    by rewrite with_title_same.
Qed.

Lemma valid_refs_length h h' refs :
  length h' = length h -> valid_refs h refs -> valid_refs h' refs.
Proof. unfold valid_refs. intros ->. done. Qed.

(** The loop finishes on every heap that holds the referenced objects,
    keeps every address, and leaves behind each listed object in its
    filled form and every other object as it was. *)
Lemma fill_loop_spec d refs h :
  valid_refs h refs ->
  exists h',
    fill_loop d refs h = Ok h' /\
    length h' = length h /\
    forall r, h' !! r =
              if decide (r ∈ refs) then fill_title d <$> h !! r else h !! r.
Proof.
  revert h. induction refs as [|r0 refs IH]; intros h Hv.
  - exists h. split; [done|]. split; [done|].
    intros r. by rewrite decide_False by apply not_elem_of_nil.
  - apply Forall_cons in Hv as [Hr0 Hv].
    destruct (lookup_lt_is_Some_2 h r0 Hr0) as [c Hc].
    (* one iteration: the object at [r0] becomes its filled form *)
    assert (fill_loop d (r0 :: refs) h =
            fill_loop d refs (<[r0 := fill_title d c]> h)) as ->.
    { simpl. rewrite Hc. destruct (get_title c) eqn:Ht.
      - rewrite fill_title_titled by (by rewrite Ht). by rewrite list_insert_id.
      - by rewrite (loop_body_spec d r0 c h). }
    destruct (IH (<[r0 := fill_title d c]> h)) as (h' & Hrun & Hlen & Hlook).
    { apply (valid_refs_length h); [apply length_insert | done]. }
    exists h'. split; [done|]. split; [by rewrite Hlen, length_insert|].
    intros r. rewrite Hlook.
    destruct (decide (r = r0)) as [->|Hne].
    + rewrite list_lookup_insert_eq by done. rewrite Hc. simpl.
      rewrite (decide_True (P := r0 ∈ r0 :: refs)) by apply list_elem_of_here.
      destruct (decide (r0 ∈ refs)); [by rewrite fill_title_idem | done].
    + rewrite list_lookup_insert_ne by done.
      destruct (decide (r ∈ refs)) as [Hin|Hnin].
      * by rewrite decide_True by (by apply list_elem_of_further).
      * rewrite decide_False; [done|].
        intros [->|Hin]%elem_of_cons; done.
Qed.

(** A run that finishes had every reference valid. *)
Lemma fill_loop_Ok_valid d refs h h' :
  fill_loop d refs h = Ok h' -> valid_refs h refs.
Proof.
  revert h. induction refs as [|r0 refs IH]; intros h Hrun; [constructor|].
  simpl in Hrun. destruct (h !! r0) as [c|] eqn:Hc; [|done].
  apply Forall_cons. split; [by apply lookup_lt_Some in Hc|].
  destruct (get_title c).
  - by apply IH.
  - apply IH in Hrun. revert Hrun. apply valid_refs_length.
    by rewrite loop_body_length.
Qed.

End DescriptorFacts.

(** ** Construction of a [Details] *)

Section ConstructionFacts.

Context {AnyEvent JsonData ClassName : Type}.

#[local] Abbreviation component := (component AnyEvent JsonData).
#[local] Abbreviation heap := (list component).
#[local] Abbreviation Details := (Details ClassName).

Implicit Types (c : component) (h : heap) (d : DataModel) (r : loc)
         (refs : list loc) (cn : option ClassName) (self : Details).

(** The comprehension of line 86 never fails: the arguments it passes
    always validate. *)
Lemma synthesize_all_Ok (items : list (string * AnyFieldInfo)) :
  synthesize_all (AnyEvent := AnyEvent) (JsonData := JsonData) items =
  Ok (map (fun kv => lookup_for (fst kv, info_title (snd kv))) items).
Proof.
  induction items as [|[name field] items IH]; simpl; [done|].
  by rewrite IH.
Qed.

Lemma merged_fields_wf d :
  wf_DataModel d ->
  merged_fields d =
  map (fun kv => (fst kv, inl (snd kv))) (model_fields d) ++
  map (fun kv => (fst kv, inr (snd kv))) (model_computed_fields d).
Proof.
  intros Hwf. unfold merged_fields. apply DictFacts.merge_disjoint.
  unfold Dict.keys. by rewrite !map_map.
Qed.

Lemma synthesized_declared d :
  wf_DataModel d ->
  map (fun kv => lookup_for (fst kv, info_title (snd kv))) (merged_fields d) =
  map (lookup_for (AnyEvent := AnyEvent) (JsonData := JsonData))
      (declared_attributes d).
Proof.
  intros Hwf. rewrite merged_fields_wf by done. unfold declared_attributes.
  by rewrite !map_app, !map_map.
Qed.

Lemma deref_valid h refs :
  valid_refs h refs ->
  exists cs, deref h refs = Some cs /\
             Forall2 (fun r c => h !! r = Some c) refs cs.
Proof.
  induction 1 as [|r refs Hr _ (cs & Hcs & Hall)]; simpl.
  - exists []. by split.
  - destruct (lookup_lt_is_Some_2 h r Hr) as [c Hc].
    exists (c :: cs). rewrite Hc, Hcs. split; [done|]. by constructor.
Qed.

Lemma deref_alloc h (cs : list component) :
  deref (h ++ cs) (seq (length h) (length cs)) = Some cs.
Proof.
  revert h. induction cs as [|c cs IH]; intros h; simpl; [done|].
  rewrite lookup_app_r, Nat.sub_diag by done. simpl.
  specialize (IH (h ++ [c])).
  rewrite length_app, <- app_assoc in IH. simpl in IH.
  rewrite Nat.add_1_r in IH. by rewrite IH.
Qed.

(** Construction without [fields]: the descriptors of the merged table
    are allocated behind the existing objects. *)
Lemma Details_new_inferred d cn h :
  let cs := map (fun kv => lookup_for (fst kv, info_title (snd kv)))
                (merged_fields d) in
  Details_new d None cn h =
  Ok ({| data := d; fields := Some (seq (length h) (length cs));
         class_name := cn |}, h ++ cs).
Proof.
  unfold Details_new, _fill_fields, Dict.items. simpl.
  by rewrite synthesize_all_Ok.
Qed.

(** Construction with an explicit list. *)
Lemma Details_new_explicit d refs cn h self h' :
  Details_new d (Some refs) cn h = Ok (self, h') ->
  self = {| data := d; fields := Some refs; class_name := cn |} /\
  valid_refs h refs /\
  length h' = length h /\
  forall r, h' !! r =
            if decide (r ∈ refs) then fill_title d <$> h !! r else h !! r.
Proof.
  unfold Details_new, _fill_fields. simpl.
  destruct (fill_loop d refs h) as [h1|e] eqn:Hrun; [|done].
  intros [= <- <-].
  pose proof (fill_loop_Ok_valid _ _ _ _ Hrun) as Hv.
  destruct (fill_loop_spec d refs h Hv) as (h2 & Hrun2 & Hlen & Hlook).
  rewrite Hrun in Hrun2. injection Hrun2 as <-. done.
Qed.

Lemma Details_new_explicit_total d refs cn h :
  valid_refs h refs ->
  exists h', Details_new d (Some refs) cn h =
             Ok ({| data := d; fields := Some refs; class_name := cn |}, h').
Proof.
  intros Hv. destruct (fill_loop_spec d refs h Hv) as (h' & Hrun & _).
  exists h'. unfold Details_new, _fill_fields. simpl. by rewrite Hrun.
Qed.

(** Whatever the input, an object that existed before construction
    is afterwards its filled form or itself. *)
Lemma Details_new_existing d fs cn h self h' r c :
  Details_new d fs cn h = Ok (self, h') ->
  h !! r = Some c ->
  h' !! r = Some c \/ h' !! r = Some (fill_title d c).
Proof.
  intros Hnew Hc. destruct fs as [refs|].
  - apply Details_new_explicit in Hnew as (_ & _ & _ & Hlook).
    rewrite Hlook, Hc. destruct (decide _); [by right | by left].
  - rewrite Details_new_inferred in Hnew. injection Hnew as _ <-.
    left. by apply lookup_app_l_Some.
Qed.

(** A second pass over objects that are their own filled form changes
    nothing. *)
Lemma fill_loop_fixpoint d refs h :
  valid_refs h refs ->
  (forall r c, r ∈ refs -> h !! r = Some c -> fill_title d c = c) ->
  fill_loop d refs h = Ok h.
Proof.
  intros Hv Hfix.
  destruct (fill_loop_spec d refs h Hv) as (h' & -> & Hlen & Hlook).
  f_equal. apply list_eq. intros r. rewrite Hlook.
  destruct (decide (r ∈ refs)) as [Hin|]; [|done].
  destruct (h !! r) as [c|] eqn:Hc; [|done].
  simpl. by rewrite (Hfix r c).
Qed.

(** A synthesized descriptor is its own filled form: a title the
    merged table left unset is not found in the stored table either. *)
Lemma fill_title_lookup_for d attr :
  wf_DataModel d -> attr ∈ declared_attributes d ->
  fill_title d (lookup_for attr : component) = lookup_for attr.
Proof.
  intros Hwf Hin. destruct attr as [name [T|]]; [done|].
  unfold fill_title, lookup_for. simpl.
  unfold declared_attributes in Hin.
  apply elem_of_app in Hin as [Hin|Hin].
  - apply list_elem_of_fmap_1 in Hin as ([k pf] & [= -> Ht] & Hin). simpl in *.
    rewrite (DictFacts.get_elem k pf).
    + by rewrite <- Ht.
    + by apply NoDup_app in Hwf as (? & _ & _).
    + done.
  - apply list_elem_of_fmap_1 in Hin as ([k cf] & [= -> Ht] & Hin). simpl in *.
    rewrite DictFacts.get_None; [done|].
    apply NoDup_app in Hwf as (_ & Hdis & _). intros Hk.
    apply (Hdis k Hk). unfold Dict.keys.
    change k with (fst (k, cf)). by apply list_elem_of_fmap_2.
Qed.

End ConstructionFacts.

(** * The claims *)

Section DetailsClaims.

Context {AnyEvent JsonData ClassName : Type}.

#[local] Abbreviation component := (component AnyEvent JsonData).
#[local] Abbreviation heap := (list component).
#[local] Abbreviation Details := (Details ClassName).

Implicit Types (c : component) (h : heap) (d : DataModel) (r : loc)
         (refs : list loc) (cn : option ClassName) (self : Details).

(** C1. Constructed with [fields] unset over a model whose declared
    names are distinct, a [Details] gets one new [DisplayLookup] per
    declared attribute of [data], the stored
    attributes first and then the computed ones, each group in its
    declared order; [field] is the attribute's name, [title] its
    declared title or unset when it declares none, and every other
    attribute of the descriptor is unset.  The objects that existed
    before are not touched. *)
Theorem C1_inferred_fields d cn h :
  wf_DataModel d ->
  exists self h',
    Details_new d None cn h = Ok (self, h') /\
    data self = d /\
    h' = h ++ map lookup_for (declared_attributes d) /\
    resolved_fields self h' = Some (map lookup_for (declared_attributes d)).
Proof.
  intros Hwf. eexists _, _. split; [apply Details_new_inferred|].
  rewrite synthesized_declared by done.
  split; [done|]. split; [done|].
  unfold resolved_fields. simpl. apply deref_alloc.
Qed.

(** C2 (amended). With an explicit [fields] list, a listed
    [DisplayLookup] whose [title] is unset and whose [field] is the
    name of a stored attribute of [data] with a non-empty declared
    title [T] ends with [title = T] and is otherwise unchanged; a
    listed descriptor whose [title] is set is left as it is. *)
Theorem C2_stored_title_fill d refs cn h self h' r :
  Details_new d (Some refs) cn h = Ok (self, h') ->
  r ∈ refs ->
  (forall b name w pf T,
      h !! r = Some (DisplayLookup b name w) ->
      title b = None ->
      Dict.get name (model_fields d) = Some pf ->
      FieldInfo.title pf = Some T ->
      T <> EmptyString ->
      h' !! r = Some (DisplayLookup (base_with_title (Some T) b) name w)) /\
  (forall c, h !! r = Some c -> get_title c <> None -> h' !! r = Some c).
Proof.
  intros Hnew Hin.
  apply Details_new_explicit in Hnew as (_ & _ & _ & Hlook).
  specialize (Hlook r). rewrite decide_True in Hlook by done.
  split.
  - intros b name w pf T Hc Hb Hget HT Hne.
    rewrite Hlook, Hc. simpl. f_equal.
    unfold fill_title, get_title. simpl. rewrite Hb, Hget, HT. simpl.
    by destruct (String.eqb_spec T EmptyString).
  - intros c Hc Ht. rewrite Hlook, Hc. simpl.
    by rewrite fill_title_titled.
Qed.

(** C3. After a successful construction [fields] is populated, whether
    or not the caller passed it: it is a list of references, each to an
    object of the heap. *)
Theorem C3_fields_populated d fs cn h self h' :
  Details_new d fs cn h = Ok (self, h') ->
  exists refs cs,
    fields self = Some refs /\ resolved_fields self h' = Some cs.
Proof.
  intros Hnew. destruct fs as [refs|].
  - apply Details_new_explicit in Hnew as (-> & Hv & Hlen & _).
    destruct (deref_valid h' refs) as (cs & Hcs & _).
    { by apply (valid_refs_length h). }
    by exists refs, cs.
  - rewrite Details_new_inferred in Hnew. injection Hnew as <- <-.
    eexists _, _. split; [done|]. apply deref_alloc.
Qed.

(** C4. With an explicit [fields] list, the resolved list is the very
    list of references passed in, same length and same order; position
    by position the resolved descriptor is the input descriptor up to
    its [title]. *)
Theorem C4_explicit_order_kept d refs cn h self h' :
  Details_new d (Some refs) cn h = Ok (self, h') ->
  fields self = Some refs /\
  exists cs0 cs,
    deref h refs = Some cs0 /\
    resolved_fields self h' = Some cs /\
    length cs = length refs /\
    Forall2 same_but_title cs0 cs.
Proof.
  intros Hnew.
  apply Details_new_explicit in Hnew as (-> & Hv & Hlen & Hlook).
  split; [done|].
  destruct (deref_valid h refs Hv) as (cs0 & Hcs0 & H0).
  destruct (deref_valid h' refs) as (cs & Hcs & H1).
  { by apply (valid_refs_length h). }
  exists cs0, cs. split; [done|]. split; [done|].
  split; [symmetry; by eapply Forall2_length|].
  assert (forall r c0 c1, h !! r = Some c0 -> h' !! r = Some c1 ->
                          same_but_title c0 c1) as Hsame.
  { intros r c0 c1 Hc0 Hc1. rewrite Hlook, Hc0 in Hc1.
    destruct (decide _); injection Hc1 as <-.
    - apply fill_title_same_but_title.
    - apply same_but_title_refl. }
  clear Hcs0 Hcs Hv Hlook. revert cs H1.
  induction H0 as [|r c0 refs cs0 Hc0 _ IH]; intros cs H1.
  - apply Forall2_nil_inv_l in H1 as ->. constructor.
  - apply Forall2_cons_inv_l in H1 as (c1 & cs1 & Hc1 & H1 & ->).
    constructor; [by apply (Hsame r) | by apply IH].
Qed.

(** C5. An explicit [DisplayLookup] whose [field] is the name of no
    declared attribute of [data] raises nothing: construction succeeds
    and the descriptor is passed through as it was, so a [title] that
    was unset is still unset. *)
Theorem C5_unknown_field_passes d refs cn h r b name w :
  valid_refs h refs ->
  r ∈ refs ->
  h !! r = Some (DisplayLookup b name w) ->
  name ∉ map fst (declared_attributes d) ->
  exists self h',
    Details_new d (Some refs) cn h = Ok (self, h') /\
    fields self = Some refs /\
    h' !! r = Some (DisplayLookup b name w) /\
    (title b = None -> get_title <$> h' !! r = Some None).
Proof.
  intros Hv Hin Hc Hname.
  destruct (Details_new_explicit_total d refs cn h Hv) as (h' & Hnew).
  eexists _, h'. split; [exact Hnew|]. split; [done|].
  apply Details_new_explicit in Hnew as (_ & _ & _ & Hlook).
  assert (h' !! r = Some (DisplayLookup b name w)) as Hr.
  { rewrite Hlook, decide_True, Hc by done. simpl. f_equal.
    unfold fill_title, get_title. simpl. destruct (title b); [done|].
    rewrite DictFacts.get_None; [done|].
    intros Hk. apply Hname. unfold declared_attributes.
    rewrite map_app, !map_map. apply elem_of_app. by left. }
  split; [done|]. intros Hb. rewrite Hr. simpl. by rewrite <- Hb.
Qed.

(** C8. Construction changes no attribute other than [title], keeps an
    object whose [title] was set exactly as it was, and keeps every
    [Display] exactly as it was, so a [Display] without a title stays
    without one whatever [data] declares.  This holds for every object
    of the heap, listed or not, and with [fields] passed or not. *)
Theorem C8_only_unset_titles_change d fs cn h self h' r c :
  Details_new d fs cn h = Ok (self, h') ->
  h !! r = Some c ->
  exists c',
    h' !! r = Some c' /\
    same_but_title c c' /\
    (get_title c <> None -> c' = c) /\
    (is_Display c = true -> c' = c).
Proof.
  intros Hnew Hc.
  destruct (Details_new_existing _ _ _ _ _ _ _ _ Hnew Hc) as [Hr|Hr].
  - exists c. split; [done|]. split; [apply same_but_title_refl|]. done.
  - exists (fill_title d c). split; [done|].
    split; [apply fill_title_same_but_title|].
    split; [apply fill_title_titled | apply fill_title_Display].
Qed.

(** C10. Running the validator again on a constructed [Details] (over
    a model whose declared names are distinct) changes nothing: it
    returns the same object, with the same list of references, and
    leaves every object of the heap as it is. *)
Theorem C10_fill_fields_idempotent d fs cn h self h' :
  wf_DataModel d ->
  Details_new d fs cn h = Ok (self, h') ->
  _fill_fields self h' = Ok (self, h').
Proof.
  intros Hwf Hnew. destruct fs as [refs|].
  - apply Details_new_explicit in Hnew as (-> & Hv & Hlen & Hlook).
    unfold _fill_fields. simpl. rewrite fill_loop_fixpoint; [done| |].
    + by apply (valid_refs_length h).
    + intros r c Hin. rewrite Hlook, decide_True by done.
      destruct (h !! r) as [c0|]; [|done]. simpl.
      intros [= <-]. apply fill_title_idem.
  - rewrite Details_new_inferred in Hnew. injection Hnew as <- <-.
    rewrite synthesized_declared by done.
    unfold _fill_fields. simpl. rewrite fill_loop_fixpoint; [done| |].
    + unfold valid_refs. apply Forall_forall. intros r Hr.
      apply elem_of_seq in Hr. rewrite length_app. lia.
    + intros r c Hr Hc. apply elem_of_seq in Hr.
      rewrite lookup_app_r in Hc by lia.
      apply list_elem_of_lookup_2, list_elem_of_fmap_1 in Hc as (attr & -> & Hattr).
      by apply fill_title_lookup_for.
Qed.

End DetailsClaims.

Section ValidationClaims.

Context {AnyEvent JsonData : Type}.

#[local] Abbreviation component := (component AnyEvent JsonData).

(** C6. [table_width_percent] is checked against the closed interval
    from 0 to 100: -1 and 101 are validation errors whatever the other
    arguments, 0 and 100 are accepted, every integer outside the
    interval is a validation error, and an accepted width is stored as
    given, never moved into the interval. *)
Theorem C6_width_bound (m : option DisplayMode.t) (t : option string)
        (oc : option AnyEvent) (f : string) (any_f : option string) (w : Z) :
  let kw field width :=
    {| kw_mode := m; kw_title := t; kw_on_click := oc;
       kw_field := field; kw_table_width_percent := Some width |} in
  let base := {| mode := m; title := t; on_click := oc |} in
  (exists errors, DisplayLookup_new (kw any_f (-1)) =
                  Raise (ValidationError errors) :> result component) /\
  (exists errors, DisplayLookup_new (kw any_f 101) =
                  Raise (ValidationError errors) :> result component) /\
  DisplayLookup_new (kw (Some f) 0) = Ok (DisplayLookup base f (Some 0) : component) /\
  DisplayLookup_new (kw (Some f) 100) = Ok (DisplayLookup base f (Some 100) : component) /\
  (w < 0 \/ 100 < w ->
   exists errors, DisplayLookup_new (kw any_f w) =
                  Raise (ValidationError errors) :> result component) /\
  (0 <= w <= 100 ->
   DisplayLookup_new (kw (Some f) w) = Ok (DisplayLookup base f (Some w) : component)) /\
  (forall c : component,
      DisplayLookup_new (kw any_f w) = Ok c ->
      get_table_width_percent c = Some (Some w) /\ 0 <= w <= 100).
Proof.
  intros kw base.
  assert (forall v, v < 0 \/ 100 < v ->
                    exists errors, DisplayLookup_new (kw any_f v) =
                                   Raise (ValidationError errors) :> result component)
    as Hout.
  { intros v Hv. unfold DisplayLookup_new, kw. simpl.
    unfold validate_Interval.
    destruct (Z.ltb_spec v 0); [destruct any_f; simpl; eauto|].
    destruct (Z.ltb_spec 100 v); [destruct any_f; simpl; eauto|]. lia. }
  assert (forall v, 0 <= v <= 100 ->
                    DisplayLookup_new (kw (Some f) v) =
                    Ok (DisplayLookup base f (Some v) : component)) as Hin.
  { intros v Hv. unfold DisplayLookup_new, kw. simpl.
    unfold validate_Interval.
    destruct (Z.ltb_spec v 0); [lia|].
    destruct (Z.ltb_spec 100 v); [lia|]. done. }
  split; [apply Hout; lia|]. split; [apply Hout; lia|].
  split; [apply Hin; lia|]. split; [apply Hin; lia|].
  split; [apply Hout|]. split; [apply Hin|].
  intros c Hc.
  destruct (decide (0 <= w <= 100)) as [Hw|Hw].
  - split; [|done]. destruct any_f as [f'|].
    + revert Hc. unfold DisplayLookup_new, kw. simpl. unfold validate_Interval.
      destruct (Z.ltb_spec w 0); [lia|].
      destruct (Z.ltb_spec 100 w); [lia|]. by intros [= <-].
    + revert Hc. unfold DisplayLookup_new, kw. simpl. done.
  - destruct (Hout w) as (errors & Herr); [lia|]. congruence.
Qed.

(** C7 (amended). The empty string is a valid [field]: a
    [DisplayLookup] built with it succeeds and stores it, the outcome
    of a construction never depends on whether [field] is empty, and
    the one error [field] can cause is to be omitted. *)
Theorem C7_field_any_string (m : option DisplayMode.t) (t : option string)
        (oc : option AnyEvent) (f : string) (w : option Z) :
  let kw field width :=
    {| kw_mode := m; kw_title := t; kw_on_click := oc;
       kw_field := field; kw_table_width_percent := width |} in
  let base := {| mode := m; title := t; on_click := oc |} in
  DisplayLookup_new (kw (Some EmptyString) None) =
    Ok (DisplayLookup base EmptyString None : component) /\
  DisplayLookup_new (kw (Some f) None) = Ok (DisplayLookup base f None : component) /\
  is_Ok (DisplayLookup_new (kw (Some EmptyString) w) : result component) =
    is_Ok (DisplayLookup_new (kw (Some f) w) : result component) /\
  (exists errors, DisplayLookup_new (kw None w) =
                  Raise (ValidationError errors) :> result component).
Proof.
  intros kw base. split; [done|]. split; [done|]. split.
  - unfold DisplayLookup_new, kw. simpl.
    by destruct (validate_table_width_percent w).
  - unfold DisplayLookup_new, kw. simpl. eauto.
Qed.

End ValidationClaims.

Section SchemaClaims.

Lemma get_ref_after_append (schema_def : Dict.t json) (v : json) :
  Dict.get "$ref" (Dict.set "required" v schema_def) = Dict.get "$ref" schema_def.
Proof. by apply DictFacts.get_set_ne. Qed.

(** C9. Whatever schema the handler generated for [Details], as long
    as it has a [required] list (it has: [data] is required), the
    hook returns a description whose [required] list is that list
    followed by ['fields'], leaving every other key as generated;
    this holds for a schema given inline and for one given by
    reference. *)
Theorem C9_fields_listed_required (s : schema_store) (schema_def : Dict.t json)
        (l : list json) :
  described_schema s = Some schema_def ->
  required_of schema_def = Some l ->
  exists s' schema_def',
    __get_pydantic_json_schema__ s = Ok s' /\
    described_schema s' = Some schema_def' /\
    required_of schema_def' = Some (l ++ [JStr "fields"]) /\
    JStr "fields" ∈ l ++ [JStr "fields"] /\
    (forall k, k <> "required" -> Dict.get k schema_def' = Dict.get k schema_def).
Proof.
  intros Hdesc Hreq.
  set (schema_def' := Dict.set "required" (JArr (l ++ [JStr "fields"])) schema_def).
  assert (append_required_fields schema_def = Ok schema_def') as Happ.
  { unfold append_required_fields. unfold required_of in Hreq.
    destruct (Dict.get "required" schema_def) as [[| | | |l0|]|]; try done.
    by injection Hreq as ->. }
  assert (exists p, resolve_ref_schema s = Ok (p, schema_def) /\
                    described_schema (store_at p schema_def' s) = Some schema_def')
    as (p & Hres & Hdesc').
  { unfold described_schema, resolve_ref_schema in *.
    destruct (Dict.get "$ref" (json_schema s)) as [j|] eqn:Href.
    - destruct j as [| | |ref| |];
        try (injection Hdesc as <-; exists Top; split; [done|]; simpl;
             unfold schema_def'; by rewrite get_ref_after_append, Href).
      destruct (Dict.get ref (definitions s)) as [sd|] eqn:Hd; [|done].
      injection Hdesc as ->. exists (Definition_ ref). split; [done|].
      simpl. by rewrite Href, DictFacts.get_set_eq.
    - injection Hdesc as <-. exists Top. split; [done|]. simpl.
      unfold schema_def'. by rewrite get_ref_after_append, Href. }
  exists (store_at p schema_def' s), schema_def'.
  split.
  { unfold __get_pydantic_json_schema__. rewrite Hres. simpl.
    by rewrite Happ. }
  split; [done|]. unfold required_of, schema_def'.
  rewrite DictFacts.get_set_eq. split; [done|].
  split; [apply elem_of_app; right; apply list_elem_of_here|].
  intros k Hk. by apply DictFacts.get_set_ne.
Qed.

End SchemaClaims.

(** * The claims at the example inputs *)

(** Construction with the explicit list, run: the shared first object is
    filled once, the lookups of the computed attribute [full], of the
    unknown [shoe_size] and of [nick] with its empty title stay without
    a title. *)
Example explicit_run :
  Details_new Examples.person (Some Examples.explicit) None Examples.objects =
  Ok (Examples.explicit_self, Examples.resolved_objects).
Proof. reflexivity. Qed.

(** Construction without [fields], run. *)
Example inferred_run :
  Details_new Examples.person None None Examples.objects =
  Ok (Examples.inferred_self, Examples.objects ++ Examples.inferred_objects).
Proof. reflexivity. Qed.

Lemma C1_inferred_fields_witness :
  exists (self : Details string) h',
    Details_new Examples.person None None Examples.objects = Ok (self, h') /\
    data self = Examples.person /\
    h' = Examples.objects ++ map lookup_for (declared_attributes Examples.person) /\
    resolved_fields self h' =
    Some (map lookup_for (declared_attributes Examples.person)).
Proof.
  apply (C1_inferred_fields Examples.person None Examples.objects).
  unfold wf_DataModel. simpl. by apply (bool_decide_unpack _).
Defined.

(** The claim C2 as the specification words it fails twice on the
    example: the lookup of [nick], a stored attribute whose declared
    title is the empty string, and the lookup of [full], a computed
    attribute titled ['Full name'], both keep their title unset. *)
Lemma C2_counterexample :
  ~ fills_title_of_any_attribute
      Examples.person [5%nat] (None : option string) Examples.objects /\
  ~ fills_title_of_any_attribute
      Examples.person [2%nat] (None : option string) Examples.objects.
Proof.
  split; intros H.
  - specialize (H _ _ 5%nat Examples.untitled "nick" None EmptyString eq_refl).
    simpl in H.
    assert (Some (Examples.lookup "nick") =
            Some (DisplayLookup (base_with_title (Some EmptyString) Examples.untitled)
                                "nick" None)) as Habs; [|discriminate Habs].
    apply H; try done.
    + apply list_elem_of_here.
    + unfold declared_attributes. simpl. do 2 apply list_elem_of_further.
      apply list_elem_of_here.
  - specialize (H _ _ 2%nat Examples.untitled "full" None "Full name" eq_refl).
    simpl in H.
    assert (Some (Examples.lookup "full") =
            Some (DisplayLookup (base_with_title (Some "Full name") Examples.untitled)
                                "full" None)) as Habs; [|discriminate Habs].
    apply H; try done.
    + apply list_elem_of_here.
    + unfold declared_attributes. simpl. do 3 apply list_elem_of_further.
      apply list_elem_of_here.
Qed.

Lemma C2_stored_title_fill_witness :
  (forall b name w pf T,
      Examples.objects !! 0%nat = Some (DisplayLookup b name w) ->
      title b = None ->
      Dict.get name (model_fields Examples.person) = Some pf ->
      FieldInfo.title pf = Some T ->
      T <> EmptyString ->
      Examples.resolved_objects !! 0%nat =
      Some (DisplayLookup (base_with_title (Some T) b) name w)) /\
  (forall c, Examples.objects !! 0%nat = Some c -> get_title c <> None ->
             Examples.resolved_objects !! 0%nat = Some c).
Proof.
  apply (C2_stored_title_fill Examples.person Examples.explicit None
                              Examples.objects Examples.explicit_self
                              Examples.resolved_objects 0%nat).
  - reflexivity.
  - apply list_elem_of_here.
Defined.

Lemma C3_fields_populated_witness :
  exists refs cs,
    fields Examples.inferred_self = Some refs /\
    resolved_fields Examples.inferred_self
                    (Examples.objects ++ Examples.inferred_objects) = Some cs.
Proof.
  apply (C3_fields_populated Examples.person None None Examples.objects).
  reflexivity.
Defined.

Lemma C4_explicit_order_kept_witness :
  fields Examples.explicit_self = Some Examples.explicit /\
  exists cs0 cs,
    deref Examples.objects Examples.explicit = Some cs0 /\
    resolved_fields Examples.explicit_self Examples.resolved_objects = Some cs /\
    length cs = length Examples.explicit /\
    Forall2 same_but_title cs0 cs.
Proof.
  apply (C4_explicit_order_kept Examples.person Examples.explicit None
                                Examples.objects).
  reflexivity.
Defined.

Lemma C5_unknown_field_passes_witness :
  exists (self : Details string) h',
    Details_new Examples.person (Some Examples.explicit) None Examples.objects =
    Ok (self, h') /\
    fields self = Some Examples.explicit /\
    h' !! 4%nat = Some (Examples.lookup "shoe_size") /\
    (title Examples.untitled = None -> get_title <$> h' !! 4%nat = Some None).
Proof.
  apply (C5_unknown_field_passes Examples.person Examples.explicit None
                                 Examples.objects 4%nat Examples.untitled
                                 "shoe_size" None).
  - unfold valid_refs. simpl. repeat constructor.
  - do 4 apply list_elem_of_further. apply list_elem_of_here.
  - reflexivity.
  - simpl. by apply (bool_decide_unpack _).
Defined.

(** The empty string is accepted as [field]. *)
Lemma C7_counterexample :
  ~ rejects_empty_field (JsonData := json)
      (Examples.kwargs (Some EmptyString) None).
Proof. intros H. destruct (H eq_refl) as (errors & Herr). discriminate Herr. Qed.

Lemma C8_only_unset_titles_change_witness :
  exists c',
    Examples.resolved_objects !! 3%nat = Some c' /\
    same_but_title (Display Examples.untitled (JStr "literal")) c' /\
    (get_title (Display Examples.untitled (JStr "literal")) <> None ->
     c' = Display Examples.untitled (JStr "literal")) /\
    (is_Display (Display Examples.untitled (JStr "literal")) = true ->
     c' = Display Examples.untitled (JStr "literal")).
Proof.
  apply (C8_only_unset_titles_change Examples.person (Some Examples.explicit) None
                                     Examples.objects Examples.explicit_self).
  - reflexivity.
  - reflexivity.
Defined.

Lemma C9_fields_listed_required_witness :
  exists s' schema_def',
    __get_pydantic_json_schema__ Examples.ref_store = Ok s' /\
    described_schema s' = Some schema_def' /\
    required_of schema_def' = Some ([JStr "data"] ++ [JStr "fields"]) /\
    JStr "fields" ∈ [JStr "data"] ++ [JStr "fields"] /\
    (forall k, k <> "required" ->
               Dict.get k schema_def' = Dict.get k Examples.Details_schema).
Proof.
  apply (C9_fields_listed_required Examples.ref_store Examples.Details_schema).
  - reflexivity.
  - reflexivity.
Defined.

(** The hook on the schema given inline, run. *)
Example inline_schema_run :
  (s' ← __get_pydantic_json_schema__ Examples.inline_store;
   Ok (required_of (json_schema s'))) =
  Ok (Some [JStr "data"; JStr "fields"]).
Proof. reflexivity. Qed.

Lemma C10_fill_fields_idempotent_witness :
  _fill_fields Examples.inferred_self (Examples.objects ++ Examples.inferred_objects) =
  Ok (Examples.inferred_self, Examples.objects ++ Examples.inferred_objects).
Proof.
  apply (C10_fill_fields_idempotent Examples.person None None Examples.objects).
  - unfold wf_DataModel. simpl. by apply (bool_decide_unpack _).
  - reflexivity.
Defined.

(** * Further properties *)

(** ** The table of line 83 *)

Module MergeFacts.

Lemma keys_set {V} (k : string) (v : V) (d : Dict.t V) :
  Dict.keys (Dict.set k v d) =
  if decide (k ∈ Dict.keys d) then Dict.keys d else Dict.keys d ++ [k].
Proof.
  unfold Dict.keys. induction d as [|[k' v'] d IH]; simpl; [done|].
  destruct (String.eqb_spec k k') as [->|Hne]; simpl.
  - by rewrite decide_True by apply list_elem_of_here.
  - rewrite IH. destruct (decide (k ∈ map fst d)) as [Hin|Hnin].
    + by rewrite decide_True by (by apply list_elem_of_further).
    + rewrite decide_False; [done|]. by intros [->|]%elem_of_cons.
Qed.

Lemma keys_set_elem {V} (k k0 : string) (v : V) (d : Dict.t V) :
  k0 ∈ Dict.keys (Dict.set k v d) <-> k0 = k \/ k0 ∈ Dict.keys d.
Proof.
  rewrite keys_set. destruct (decide (k ∈ Dict.keys d)) as [Hin|Hnin].
  - split; [by right|]. by intros [->|].
  - rewrite elem_of_app, list_elem_of_singleton. tauto.
Qed.

Lemma keys_set_NoDup {V} (k : string) (v : V) (d : Dict.t V) :
  NoDup (Dict.keys d) -> NoDup (Dict.keys (Dict.set k v d)).
Proof.
  intros Hnd. rewrite keys_set. destruct (decide (k ∈ Dict.keys d)); [done|].
  apply NoDup_app. split; [done|]. split; [|apply NoDup_singleton].
  intros x Hx ->%list_elem_of_singleton. done.
Qed.

Lemma keys_update_elem {V} (k0 : string) (other d : Dict.t V) :
  k0 ∈ Dict.keys (Dict.update d other) <->
  k0 ∈ Dict.keys d \/ k0 ∈ Dict.keys other.
Proof.
  unfold Dict.update, Dict.items. revert d.
  induction other as [|[k v] other IH]; intros d; simpl.
  - split; [by left|]. intros [|Hin]; [done|]. by apply elem_of_nil in Hin.
  - rewrite IH, keys_set_elem. unfold Dict.keys. simpl.
    rewrite elem_of_cons. tauto.
Qed.

Lemma keys_update_NoDup {V} (other d : Dict.t V) :
  NoDup (Dict.keys d) -> NoDup (Dict.keys (Dict.update d other)).
Proof.
  unfold Dict.update, Dict.items. revert d.
  induction other as [|[k v] other IH]; intros d Hnd; simpl; [done|].
  by apply IH, keys_set_NoDup.
Qed.

(** Whatever the two tables, [{**a, **b}] has no key twice and has
    exactly the keys of [a] and of [b]. *)
Lemma keys_merge_NoDup {V} (a b : Dict.t V) : NoDup (Dict.keys (Dict.merge a b)).
Proof. unfold Dict.merge. do 2 apply keys_update_NoDup. constructor. Qed.

Lemma keys_merge_elem {V} (k : string) (a b : Dict.t V) :
  k ∈ Dict.keys (Dict.merge a b) <-> k ∈ Dict.keys a \/ k ∈ Dict.keys b.
Proof.
  unfold Dict.merge. rewrite !keys_update_elem.
  split; [|tauto]. intros [[Hin|]|]; [|tauto..]. by apply elem_of_nil in Hin.
Qed.

End MergeFacts.

Section InferenceExtras.

Context {AnyEvent JsonData ClassName : Type}.

#[local] Abbreviation component := (component AnyEvent JsonData).
#[local] Abbreviation heap := (list component).

Implicit Types (c : component) (h : heap) (d : DataModel) (r : loc)
         (refs : list loc) (cn : option ClassName).

Lemma synthesized_names d :
  map get_field
      (map (fun kv => lookup_for (fst kv, info_title (snd kv)) : component)
           (merged_fields d)) =
  map Some (Dict.keys (merged_fields d)).
Proof. unfold Dict.keys. by rewrite !map_map. Qed.

(** Names inferred without [fields] (lines 83-86): whatever the two
    tables of the model hold, construction succeeds, no two of the
    synthesized descriptors have the same [field], every one is a
    [DisplayLookup], and a name is the [field] of one of them exactly
    when a stored or a computed attribute declares it. *)
Theorem inferred_names_distinct d cn h :
  exists self h' cs,
    Details_new d None cn h = Ok (self, h') /\
    resolved_fields self h' = Some cs /\
    NoDup (map get_field cs) /\
    Forall (fun c => is_Display c = false) cs /\
    (forall name,
        Some name ∈ map get_field cs <->
        name ∈ Dict.keys (model_fields d) \/
        name ∈ Dict.keys (model_computed_fields d)).
Proof.
  eexists _, _, _. split; [apply Details_new_inferred|].
  split; [unfold resolved_fields; simpl; apply deref_alloc|].
  rewrite synthesized_names. split; [|split].
  - apply (NoDup_fmap_2 Some), MergeFacts.keys_merge_NoDup.
  - apply Forall_forall. by intros c (kv & -> & _)%list_elem_of_fmap_1.
  - intros name. rewrite (list_elem_of_fmap_inj Some).
    unfold merged_fields. rewrite MergeFacts.keys_merge_elem.
    unfold Dict.keys. by rewrite !map_map.
Qed.

End InferenceExtras.

(** ** The explicit branch, lines 87-95 *)

Section ExplicitExtras.

Context {AnyEvent JsonData ClassName : Type}.

#[local] Abbreviation component := (component AnyEvent JsonData).
#[local] Abbreviation heap := (list component).
#[local] Abbreviation Details := (Details ClassName).

Implicit Types (c : component) (h : heap) (d : DataModel) (r : loc)
         (refs : list loc) (cn : option ClassName) (self : Details).

(** The title of a filled object. *)
Lemma get_title_fill_title d c T :
  get_title (fill_title d c) = Some T <->
  get_title c = Some T \/
  (get_title c = None /\ T <> EmptyString /\
   exists name pf,
     get_field c = Some name /\
     Dict.get name (model_fields d) = Some pf /\
     FieldInfo.title pf = Some T).
Proof.
  unfold fill_title. destruct (get_title c) as [t|] eqn:Ht.
  { rewrite Ht. split; [by left | by intros [?|[? _]]]. }
  destruct c as [b name w|b v]; simpl.
  2:{ rewrite Ht. split; [done|]. by intros [?|(_ & _ & ? & ? & ? & _)]. }
  destruct (Dict.get name (model_fields d)) as [pf|] eqn:Hget.
  2:{ rewrite Ht. split; [done|].
      intros [?|(_ & _ & ? & ? & [= <-] & Hg & _)]; [done|]. congruence. }
  destruct (FieldInfo.title pf) as [T'|] eqn:HT; simpl.
  2:{ rewrite Ht. split; [done|].
      intros [?|(_ & _ & ? & ? & [= <-] & Hg & Ht')]; [done|]. congruence. }
  destruct (String.eqb_spec T' EmptyString) as [->|Hne]; simpl.
  - rewrite Ht. split; [done|].
    intros [?|(_ & Hne & ? & ? & [= <-] & Hg & Ht')]; [done|]. congruence.
  - unfold get_title. simpl. split.
    + intros [= <-]. right. split; [done|]. split; [done|]. by exists name, pf.
    + intros [?|(_ & _ & ? & ? & [= <-] & Hg & Ht')]; [done|]. congruence.
Qed.

(** When a listed descriptor has a title after construction (lines
    89-95): it ends with title [T] exactly when it had title [T] before,
    or had no title, is a [DisplayLookup], and the stored attribute of
    its [field] name declares the non-empty title [T].  So a [Display],
    a lookup of a computed attribute and a lookup of an attribute with an
    empty or no title never get a title from construction. *)
Theorem title_after_construction d refs cn h self h' r c :
  Details_new d (Some refs) cn h = Ok (self, h') ->
  r ∈ refs ->
  h !! r = Some c ->
  exists c',
    h' !! r = Some c' /\
    forall T,
      get_title c' = Some T <->
      get_title c = Some T \/
      (get_title c = None /\ T <> EmptyString /\
       exists name pf,
         get_field c = Some name /\
         Dict.get name (model_fields d) = Some pf /\
         FieldInfo.title pf = Some T).
Proof.
  intros Hnew Hin Hc.
  apply Details_new_explicit in Hnew as (_ & _ & _ & Hlook).
  exists (fill_title d c). split.
  - by rewrite Hlook, decide_True, Hc.
  - apply get_title_fill_title.
Qed.

(** A lookup whose [field] is not the name of a stored attribute is
    left exactly as it was (line 91 consults [model_fields] alone), also
    when a computed attribute of that name declares a title. *)
Theorem non_stored_name_passes d refs cn h self h' r b name w :
  Details_new d (Some refs) cn h = Ok (self, h') ->
  h !! r = Some (DisplayLookup b name w) ->
  name ∉ Dict.keys (model_fields d) ->
  h' !! r = Some (DisplayLookup b name w).
Proof.
  intros Hnew Hc Hname.
  apply Details_new_explicit in Hnew as (_ & _ & _ & Hlook).
  rewrite Hlook, Hc. destruct (decide _); [|done]. simpl. f_equal.
  unfold fill_title. destruct (get_title _); [done|].
  by rewrite DictFacts.get_None.
Qed.

(** The explicit branch allocates nothing and touches no object that
    is not listed. *)
Theorem unlisted_untouched d refs cn h self h' :
  Details_new d (Some refs) cn h = Ok (self, h') ->
  length h' = length h /\
  forall r, r ∉ refs -> h' !! r = h !! r.
Proof.
  intros Hnew.
  apply Details_new_explicit in Hnew as (_ & _ & Hlen & Hlook).
  split; [done|]. intros r Hr. by rewrite Hlook, decide_False.
Qed.

(** The heap after construction depends only on which objects are
    listed, not on their order nor on how often one is listed: a list
    with the same members constructs as well and leaves the same heap. *)
Theorem listing_order_irrelevant d refs1 refs2 cn h self1 h1 :
  Details_new d (Some refs1) cn h = Ok (self1, h1) ->
  (forall r, r ∈ refs1 <-> r ∈ refs2) ->
  Details_new d (Some refs2) cn h =
  Ok ({| data := d; fields := Some refs2; class_name := cn |}, h1).
Proof.
  intros H1 Hsame.
  apply Details_new_explicit in H1 as (_ & Hv1 & _ & Hlook1).
  destruct (Details_new_explicit_total d refs2 cn h) as (h2 & H2).
  { apply Forall_forall. intros r Hr%Hsame.
    by apply (proj1 (Forall_forall _ _) Hv1). }
  rewrite H2. do 2 f_equal.
  apply Details_new_explicit in H2 as (_ & _ & _ & Hlook2).
  apply list_eq. intros r. rewrite Hlook1, Hlook2.
  destruct (decide (r ∈ refs1)) as [Hin|Hnin].
  - by rewrite decide_True by (by apply Hsame).
  - rewrite decide_False; [done|]. intros Hin. by apply Hnin, Hsame.
Qed.

(** Two constructions over the same model, one after the other, leave
    the heap that one construction with the concatenated list leaves. *)
Theorem constructions_compose d refs1 refs2 cn h self1 h1 self2 h2 :
  Details_new d (Some refs1) cn h = Ok (self1, h1) ->
  Details_new d (Some refs2) cn h1 = Ok (self2, h2) ->
  Details_new d (Some (refs1 ++ refs2)) cn h =
  Ok ({| data := d; fields := Some (refs1 ++ refs2); class_name := cn |}, h2).
Proof.
  intros H1 H2.
  apply Details_new_explicit in H1 as (_ & Hv1 & Hlen1 & Hlook1).
  apply Details_new_explicit in H2 as (_ & Hv2 & Hlen2 & Hlook2).
  destruct (Details_new_explicit_total d (refs1 ++ refs2) cn h) as (h' & Hnew).
  { apply Forall_app. split; [done|]. by apply (valid_refs_length h1). }
  rewrite Hnew. do 2 f_equal.
  apply Details_new_explicit in Hnew as (_ & _ & _ & Hlook).
  apply list_eq. intros r. rewrite Hlook, Hlook2, Hlook1.
  destruct (decide (r ∈ refs1)) as [Hin1|Hnin1];
    destruct (decide (r ∈ refs2)) as [Hin2|Hnin2].
  - rewrite decide_True by (apply elem_of_app; by left).
    destruct (h !! r); [|done]. simpl. by rewrite fill_title_idem.
  - by rewrite decide_True by (apply elem_of_app; by left).
  - by rewrite decide_True by (apply elem_of_app; by right).
  - rewrite decide_False; [done|]. by intros [?|?]%elem_of_app.
Qed.

(** The descriptors synthesized without [fields] (line 86) are new
    objects: their references are pairwise distinct, none of them is the
    address of an object that existed before, and each points to an
    object afterwards.  So two [Details] built without [fields] share no
    descriptor, nor does one share a descriptor with its caller. *)
Theorem inferred_descriptors_fresh d cn h self h' refs :
  Details_new d None cn h = Ok (self, h') ->
  fields self = Some refs ->
  NoDup refs /\
  forall r, r ∈ refs -> h !! r = None /\ is_Some (h' !! r).
Proof.
  intros Hnew Hrefs. rewrite Details_new_inferred in Hnew.
  injection Hnew as <- <-. simpl in Hrefs. injection Hrefs as <-.
  split; [apply NoDup_seq|]. intros r Hr%elem_of_seq. split.
  - apply lookup_ge_None. lia.
  - apply lookup_lt_is_Some. rewrite length_app. lia.
Qed.

Lemma valid_width_fill_title d c : valid_width c -> valid_width (fill_title d c).
Proof.
  destruct (fill_title_cases d c) as [->|(b & name & w & pf & T & -> & _ & _ & _ & _ & ->)];
    done.
Qed.

(** Construction of a [Details] keeps the bound of line 52: when every
    [DisplayLookup] of the heap has its width unset or between 0 and 100
    before, so has every one after, the synthesized ones included. *)
Theorem widths_stay_valid d fs cn h self h' :
  Details_new d fs cn h = Ok (self, h') ->
  Forall valid_width h ->
  Forall valid_width h'.
Proof.
  intros Hnew Hvalid. destruct fs as [refs|].
  - apply Details_new_explicit in Hnew as (_ & _ & _ & Hlook).
    apply Forall_lookup. intros r c' Hc'. rewrite Hlook in Hc'.
    destruct (h !! r) as [c|] eqn:Hc; [|by destruct (decide _)].
    pose proof (Forall_lookup_1 _ _ _ _ Hvalid Hc) as Hvc.
    destruct (decide _); injection Hc' as <-; [by apply valid_width_fill_title | done].
  - rewrite Details_new_inferred in Hnew. injection Hnew as _ <-.
    apply Forall_app. split; [done|].
    apply Forall_forall. by intros c (kv & -> & _)%list_elem_of_fmap_1.
Qed.

End ExplicitExtras.

(** ** The schema hook, lines 98-105 *)

Section HookExtras.

Implicit Types (s : schema_store) (schema_def : Dict.t json) (l : list json).



Lemma described_resolve s schema_def :
  described_schema s = Some schema_def <->
  exists p, resolve_ref_schema s = Ok (p, schema_def).
Proof.
  unfold described_schema. destruct (resolve_ref_schema s) as [[p sd]|e].
  - split; [intros [= ->]; by exists p | by intros (? & [= _ ->])].
  - split; [done | by intros (? & ?)].
Qed.

(** After the dict at [p] was replaced by one with the same [$ref]
    entry, the handler resolves to the replacement. *)
Lemma resolve_store_at s p schema_def schema_def' :
  resolve_ref_schema s = Ok (p, schema_def) ->
  Dict.get "$ref" schema_def' = Dict.get "$ref" schema_def ->
  resolve_ref_schema (store_at p schema_def' s) = Ok (p, schema_def').
Proof.
  unfold resolve_ref_schema. intros Hres Href.
  destruct (Dict.get "$ref" (json_schema s)) as [j|] eqn:Hj.
  - destruct j as [| | |ref| |];
      try (injection Hres as <- <-; simpl; by rewrite Href, Hj).
    destruct (Dict.get ref (definitions s)) as [sd|] eqn:Hd; [|done].
    injection Hres as <- <-. simpl. by rewrite Hj, DictFacts.get_set_eq.
  - injection Hres as <- <-. simpl. by rewrite Href, Hj.
Qed.

Lemma append_required_fields_Ok schema_def schema_def' :
  append_required_fields schema_def = Ok schema_def' <->
  exists l, Dict.get "required" schema_def = Some (JArr l) /\
            schema_def' = Dict.set "required" (JArr (l ++ [JStr "fields"])) schema_def.
Proof.
  unfold append_required_fields.
  destruct (Dict.get "required" schema_def) as [[| | | |l|]|];
    try (split; [done | by intros (? & ? & _)]).
  split; [intros [= <-]; by exists l | by intros (? & [= <-] & ->)].
Qed.

(** One run of the hook on a schema with a [required] list. *)
Lemma hook_run s schema_def l :
  described_schema s = Some schema_def ->
  required_of schema_def = Some l ->
  let schema_def' := Dict.set "required" (JArr (l ++ [JStr "fields"])) schema_def in
  exists p,
    resolve_ref_schema s = Ok (p, schema_def) /\
    __get_pydantic_json_schema__ s = Ok (store_at p schema_def' s) /\
    resolve_ref_schema (store_at p schema_def' s) = Ok (p, schema_def').
Proof.
  intros (p & Hres)%described_resolve Hreq schema_def'. exists p.
  split; [done|].
  assert (append_required_fields schema_def = Ok schema_def') as Happ.
  { apply append_required_fields_Ok. exists l. split; [|done].
    unfold required_of in Hreq.
    by destruct (Dict.get "required" schema_def) as [[| | | |l0|]|];
      try done; injection Hreq as ->. }
  split.
  - unfold __get_pydantic_json_schema__. rewrite Hres. simpl. by rewrite Happ.
  - apply (resolve_store_at s p schema_def); [done|].
    by apply DictFacts.get_set_ne.
Qed.

(** The hook does not create the list it appends to (line 104): on a
    schema without a [required] list it raises and returns no schema,
    with [KeyError] when the key is absent. *)
Theorem hook_needs_required s schema_def :
  described_schema s = Some schema_def ->
  required_of schema_def = None ->
  (exists e, __get_pydantic_json_schema__ s = Raise e) /\
  (Dict.get "required" schema_def = None ->
   __get_pydantic_json_schema__ s = Raise (KeyError "required")).
Proof.
  intros (p & Hres)%described_resolve Hreq.
  unfold __get_pydantic_json_schema__. rewrite Hres. simpl.
  unfold append_required_fields, required_of in *.
  destruct (Dict.get "required" schema_def) as [[| | | |l|]|]; simpl;
    try done; split; eauto; done.
Qed.

(** The hook appends without looking whether ['fields'] is listed
    (line 104): run on its own result it lists ['fields'] twice. *)
Theorem hook_twice_lists_twice s schema_def l :
  described_schema s = Some schema_def ->
  required_of schema_def = Some l ->
  exists s1 s2 schema_def2,
    __get_pydantic_json_schema__ s = Ok s1 /\
    __get_pydantic_json_schema__ s1 = Ok s2 /\
    described_schema s2 = Some schema_def2 /\
    required_of schema_def2 = Some (l ++ [JStr "fields"; JStr "fields"]).
Proof.
  intros Hdesc Hreq.
  destruct (hook_run s schema_def l Hdesc Hreq) as (p & _ & Hrun1 & Hres1).
  set (sd1 := Dict.set "required" (JArr (l ++ [JStr "fields"])) schema_def) in *.
  set (s1 := store_at p sd1 s) in *.
  assert (required_of sd1 = Some (l ++ [JStr "fields"])) as Hreq1.
  { unfold required_of, sd1. by rewrite DictFacts.get_set_eq. }
  destruct (hook_run s1 sd1 (l ++ [JStr "fields"])) as (p1 & _ & Hrun2 & Hres2);
    [apply described_resolve; by exists p | exact Hreq1 |].
  eexists s1, _, _. split; [done|]. split; [exact Hrun2|].
  split; [apply described_resolve; by eexists|].
  unfold required_of. rewrite DictFacts.get_set_eq. by rewrite <- app_assoc.
Qed.


End HookExtras.

(** ** Display modes, lines 18-30 *)

(** Member and value determine each other: looking a string up gives
    the member [m] exactly when the string is the value of [m].  So the
    lookup of a member's value gives the member back, no two members
    share a value, and every other string is refused. *)
Theorem DisplayMode_value_roundtrip (s : string) (m : DisplayMode.t) :
  DisplayMode_of_value s = Some m <-> DisplayMode_value m = s.
Proof.
  split.
  - intros H. unfold DisplayMode_of_value in H.
    apply find_some in H as [_ H]. by apply String.eqb_eq in H.
  - intros <-. by destruct m.
Qed.

(** ** Calls of the two descriptor classes, lines 46-63 *)

Section CallExtras.

Context {AnyEvent JsonData : Type}.

#[local] Abbreviation component := (component AnyEvent JsonData).

Implicit Types (c : component) (a : keywords AnyEvent JsonData).

Lemma forbid_extra_Ok (names : list string) (r : result component) c :
  forbid_extra names r = Ok c <-> names = [] /\ r = Ok c.
Proof.
  unfold forbid_extra. destruct names as [|n names]; simpl.
  - split; [done | by intros [_ ?]].
  - split; [|by intros [? _]]. by destruct r as [?|[]].
Qed.

Lemma passed_nil {A} (name : string) (v : option A) :
  passed name v = [] <-> v = None.
Proof. by destruct v. Qed.

Lemma DisplayLookup_new_Ok (kw : DisplayLookup_kwargs AnyEvent) c :
  DisplayLookup_new kw = Ok c <->
  exists f,
    kw_field kw = Some f /\
    (forall w, kw_table_width_percent kw = Some w -> 0 <= w <= 100) /\
    c = DisplayLookup {| mode := kw_mode kw; title := kw_title kw;
                         on_click := kw_on_click kw |}
                      f (kw_table_width_percent kw).
Proof.
  destruct kw as [m t oc [f|] [w|]]; unfold DisplayLookup_new; simpl;
    unfold validate_Interval.
  - destruct (Z.ltb_spec w 0); [|destruct (Z.ltb_spec 100 w)]; simpl.
    + split; [done|]. intros (? & _ & Hw & _). specialize (Hw w eq_refl). lia.
    + split; [done|]. intros (? & _ & Hw & _). specialize (Hw w eq_refl). lia.
    + split.
      * intros [= <-]. exists f. split; [done|]. split; [|done].
        intros ? [= <-]. lia.
      * by intros (? & [= <-] & _ & ->).
  - split.
    + intros [= <-]. by exists f.
    + by intros (? & [= <-] & _ & ->).
  - split; [|by intros (? & ? & _)].
    by destruct (Z.ltb_spec w 0); [|destruct (Z.ltb_spec 100 w)].
  - split; [done | by intros (? & ? & _)].
Qed.

Lemma Display_new_Ok (kw : Display_kwargs AnyEvent JsonData) c :
  Display_new kw = Ok c <->
  exists v,
    dkw_value kw = Some v /\
    (dkw_type kw = None \/ dkw_type kw = Some "Display") /\
    c = Display {| mode := dkw_mode kw; title := dkw_title kw;
                   on_click := dkw_on_click kw |} v.
Proof.
  destruct kw as [m t oc [v|] [ty|]]; unfold Display_new; simpl.
  - destruct (String.eqb_spec ty "Display") as [->|Hne]; simpl.
    + split; [intros [= <-]; exists v; auto | by intros (? & [= <-] & _ & ->)].
    + split; [done|]. intros (? & _ & [?|[= ?]] & _); done.
  - split; [intros [= <-]; exists v; auto | by intros (? & [= <-] & _ & ->)].
  - split; [|by intros (? & ? & _)]. by destruct (String.eqb ty "Display").
  - split; [done | by intros (? & ? & _)].
Qed.

(** A call of [DisplayLookup] builds an object exactly when [field] is
    passed, the width is not passed, [None] or between 0 and 100, and no
    keyword is passed that the class does not declare ([value] and
    [type] are such keywords); the object holds the arguments as
    passed. *)
Theorem DisplayLookup_call_Ok a c :
  DisplayLookup_call a = Ok c <->
  a_value a = None /\ a_type a = None /\ a_unknown a = [] /\
  exists f,
    a_field a = Some f /\
    (forall w, a_table_width_percent a = Some (Some w) -> 0 <= w <= 100) /\
    c = DisplayLookup {| mode := a_mode a; title := a_title a;
                         on_click := a_on_click a |}
                      f (match a_table_width_percent a with
                         | Some w => w
                         | None => None
                         end).
Proof.
  unfold DisplayLookup_call.
  rewrite forbid_extra_Ok, DisplayLookup_new_Ok. simpl.
  destruct a as [m t oc f w v ty unknown]; simpl.
  destruct v, ty, unknown; simpl;
    try (split; [by intros [? _] | by intros (? & ? & ? & _)]).
  split.
  - intros (_ & f' & Hf & Hw & ->). do 3 (split; [done|]).
    exists f'. split; [done|]. split; [|done].
    intros w0 ->. by apply Hw.
  - intros (_ & _ & _ & f' & Hf & Hw & ->). split; [done|].
    exists f'. split; [done|]. split; [|done].
    intros w0 Hw0. apply Hw. destruct w as [[?|]|]; simpl in *; congruence.
Qed.

(** A call of [Display] builds an object exactly when [value] is
    passed, [type] is not passed or is ['Display'], and no keyword is
    passed that the class does not declare ([field] and
    [table_width_percent], even as [None], are such keywords). *)
Theorem Display_call_Ok a c :
  Display_call a = Ok c <->
  a_field a = None /\ a_table_width_percent a = None /\ a_unknown a = [] /\
  exists v,
    a_value a = Some v /\
    (a_type a = None \/ a_type a = Some "Display") /\
    c = Display {| mode := a_mode a; title := a_title a;
                   on_click := a_on_click a |} v.
Proof.
  unfold Display_call.
  rewrite forbid_extra_Ok, Display_new_Ok. simpl.
  destruct a as [m t oc f w v ty unknown]; simpl.
  destruct f, w, unknown; simpl;
    try (split; [by intros [? _] | by intros (? & ? & ? & _)]).
  split; [by intros (_ & ?) | by intros (_ & _ & _ & ?)].
Qed.

(** No keyword set builds an object of both classes: the union of line
    72 never has to choose. *)
Theorem classes_exclusive a :
  is_Ok (DisplayLookup_call a) && is_Ok (Display_call a) = false.
Proof.
  destruct (DisplayLookup_call a) as [c1|] eqn:H1; [|done].
  destruct (Display_call a) as [c2|] eqn:H2; [|done].
  apply DisplayLookup_call_Ok in H1 as (_ & _ & _ & f & Hf & _).
  apply Display_call_Ok in H2 as (Hnf & _). congruence.
Qed.

End CallExtras.

(** ** The further properties at the example inputs *)

Lemma title_after_construction_witness :
  exists c',
    Examples.resolved_objects !! 0%nat = Some c' /\
    forall T,
      get_title c' = Some T <->
      get_title (Examples.lookup "name") = Some T \/
      (get_title (Examples.lookup "name") = None /\ T <> EmptyString /\
       exists name pf,
         get_field (Examples.lookup "name") = Some name /\
         Dict.get name (model_fields Examples.person) = Some pf /\
         FieldInfo.title pf = Some T).
Proof.
  apply (title_after_construction Examples.person Examples.explicit None
                                  Examples.objects Examples.explicit_self
                                  Examples.resolved_objects 0%nat).
  - reflexivity.
  - apply list_elem_of_here.
  - reflexivity.
Defined.

(** The lookup of the computed attribute [full], titled ['Full name']
    in the model, is passed through without a title. *)
Lemma non_stored_name_passes_witness :
  Examples.resolved_objects !! 2%nat = Some (Examples.lookup "full").
Proof.
  apply (non_stored_name_passes Examples.person Examples.explicit None
                                Examples.objects Examples.explicit_self
                                Examples.resolved_objects 2%nat
                                Examples.untitled "full" None).
  - reflexivity.
  - reflexivity.
  - simpl. by apply (bool_decide_unpack _).
Defined.

Lemma unlisted_untouched_witness :
  length Examples.resolved_objects = length Examples.objects /\
  forall r, r ∉ [0%nat] -> Examples.resolved_objects !! r = Examples.objects !! r.
Proof.
  apply (unlisted_untouched Examples.person [0%nat] (None : option string)
                            Examples.objects
                            {| data := Examples.person; fields := Some [0%nat];
                               class_name := None |}).
  reflexivity.
Defined.

Lemma listing_order_irrelevant_witness :
  Details_new Examples.person (Some [5; 4; 3; 2; 1; 0]%nat) None Examples.objects =
  Ok ({| data := Examples.person; fields := Some [5; 4; 3; 2; 1; 0]%nat;
         class_name := (None : option string) |}, Examples.resolved_objects).
Proof.
  apply (listing_order_irrelevant
           Examples.person Examples.explicit [5; 4; 3; 2; 1; 0]%nat
           None Examples.objects Examples.explicit_self).
  - reflexivity.
  - intros r. unfold Examples.explicit.
    rewrite !elem_of_cons, !elem_of_nil. tauto.
Defined.

Lemma inferred_descriptors_fresh_witness :
  NoDup [6; 7; 8; 9]%nat /\
  forall r, r ∈ [6; 7; 8; 9]%nat ->
            Examples.objects !! r = None /\
            is_Some ((Examples.objects ++ Examples.inferred_objects) !! r).
Proof.
  apply (inferred_descriptors_fresh Examples.person None Examples.objects
                                    Examples.inferred_self).
  - reflexivity.
  - reflexivity.
Defined.

Lemma constructions_compose_witness :
  Details_new Examples.person (Some ([2; 3] ++ [0; 2])%nat) (None : option string)
              Examples.objects =
  Ok ({| data := Examples.person; fields := Some ([2; 3] ++ [0; 2])%nat;
         class_name := None |}, Examples.resolved_objects).
Proof.
  apply (constructions_compose
           Examples.person [2; 3]%nat [0; 2]%nat None Examples.objects
           {| data := Examples.person; fields := Some [2; 3]%nat;
              class_name := None |}
           Examples.objects
           {| data := Examples.person; fields := Some [0; 2]%nat;
              class_name := None |}).
  - reflexivity.
  - reflexivity.
Defined.

Lemma widths_stay_valid_witness : Forall valid_width Examples.resolved_objects.
Proof.
  apply (widths_stay_valid Examples.person (Some Examples.explicit) None
                           Examples.objects Examples.explicit_self).
  - reflexivity.
  - unfold Examples.objects.
    repeat (apply Forall_cons_2; [simpl; try lia; exact I|]).
    apply Forall_nil_2.
Defined.

Lemma hook_needs_required_witness :
  (exists e, __get_pydantic_json_schema__ MoreExamples.no_required_store = Raise e) /\
  (Dict.get "required" (json_schema MoreExamples.no_required_store) = None ->
   __get_pydantic_json_schema__ MoreExamples.no_required_store =
   Raise (KeyError "required")).
Proof.
  apply (hook_needs_required MoreExamples.no_required_store).
  - reflexivity.
  - reflexivity.
Defined.

Lemma hook_twice_lists_twice_witness :
  exists s1 s2 schema_def2,
    __get_pydantic_json_schema__ Examples.ref_store = Ok s1 /\
    __get_pydantic_json_schema__ s1 = Ok s2 /\
    described_schema s2 = Some schema_def2 /\
    required_of schema_def2 = Some ([JStr "data"] ++ [JStr "fields"; JStr "fields"]).
Proof.
  apply (hook_twice_lists_twice Examples.ref_store Examples.Details_schema).
  - reflexivity.
  - reflexivity.
Defined.


(** The calls on the example keyword sets, run: a field name together
    with a literal value builds neither class. *)
Example calls_run :
  is_Ok (DisplayLookup_call MoreExamples.both) = false /\
  is_Ok (Display_call MoreExamples.both) = false /\
  is_Ok (DisplayLookup_call MoreExamples.only_field) = true /\
  is_Ok (Display_call MoreExamples.only_field) = false /\
  is_Ok (DisplayLookup_call MoreExamples.only_value) = false /\
  is_Ok (Display_call MoreExamples.only_value) = true.
Proof. repeat split. Qed.
